(** * VIBE scoring pipeline: a shallow embedding of [vibe_calculator.py]

    The Python module computes a composite basketball rating from
    per-player stat dictionaries.  This development embeds its functions
    as Rocq definitions and proves the properties of the pipeline.

    Numbers.  Python floats and ints are idealised as exact reals, plus
    one extra value [NaN] (what [np.mean] and [np.std] give on an empty
    array).  Rounding error, overflow and infinities are outside the
    model.  Division follows Python: a zero divisor raises
    [ZeroDivisionError].

    Dictionaries.  A stat line and a result are [gmap string pyval];
    a value is [None], a number or a string.

    Effects.  A function that can raise returns [res]; the builder, which
    writes into the caller's dictionaries, returns the updated population
    next to its result. *)

From Stdlib Require Import Reals Lra Lia ZArith.
From stdpp Require Import base option list gmap strings.

Local Open Scope R_scope.

(** ** Numbers *)

Inductive num : Type :=
  | Fin (r : R)
  | NaN.

#[global] Instance Rle_decision (x y : R) : Decision (x <= y) := Rle_dec x y.
#[global] Instance Rlt_decision (x y : R) : Decision (x < y) := Rlt_dec x y.
#[global] Instance Req_decision : EqDecision R := Req_dec_T.

Definition nadd (a b : num) : num :=
  match a, b with Fin x, Fin y => Fin (x + y) | _, _ => NaN end.
Definition nsub (a b : num) : num :=
  match a, b with Fin x, Fin y => Fin (x - y) | _, _ => NaN end.
Definition nmul (a b : num) : num :=
  match a, b with Fin x, Fin y => Fin (x * y) | _, _ => NaN end.

(** Comparisons with [NaN] are false. *)
Definition nle (a b : num) : bool :=
  match a, b with Fin x, Fin y => bool_decide (x <= y) | _, _ => false end.
Definition nlt (a b : num) : bool :=
  match a, b with Fin x, Fin y => bool_decide (x < y) | _, _ => false end.
Definition nge (a b : num) : bool := nle b a.
Definition ngt (a b : num) : bool := nlt b a.

(** Python's two-argument [max(a, b)]: [b] if [b > a], else [a]. *)
Definition nmax (a b : num) : num := if ngt b a then b else a.

(** ** Exceptions *)

Inductive exn : Type :=
  | TypeError
  | ZeroDivisionError
  | NameError
  | KeyError.

Inductive res (A : Type) : Type :=
  | Ok (a : A)
  | Raise (e : exn).
Arguments Ok {A} a.
Arguments Raise {A} e.

#[global] Instance res_ret : MRet res := fun _ a => Ok a.
#[global] Instance res_bind : MBind res := fun _ _ f m =>
  match m with Ok a => f a | Raise e => Raise e end.
#[global] Instance res_fmap : FMap res := fun _ _ f m =>
  match m with Ok a => Ok (f a) | Raise e => Raise e end.

(** [a / b] on floats. *)
Definition ndiv (a b : num) : res num :=
  match b with
  | Fin y => if decide (y = 0) then Raise ZeroDivisionError
             else match a with Fin x => Ok (Fin (x / y)) | NaN => Ok NaN end
  | NaN => Ok NaN
  end.

(** ** Python values and dictionaries *)

Inductive pyval : Type :=
  | PNone
  | PNum (x : num)
  | PStr (s : string).

(** Truth value of an object, as [not] and [or] test it. *)
Definition truthy (v : pyval) : bool :=
  match v with
  | PNone => false
  | PNum (Fin r) => negb (bool_decide (r = 0))
  | PNum NaN => true
  | PStr s => negb (bool_decide (s = EmptyString))
  end.

(** A number where arithmetic needs one; [None] and strings raise. *)
Definition as_num (v : pyval) : res num :=
  match v with PNum x => Ok x | _ => Raise TypeError end.

(** [d.get(k, dflt)] *)
Definition py_get (d : gmap string pyval) (k : string) (dflt : pyval) : pyval :=
  default dflt (d !! k).

(** [d.get(k, 0) or 0] *)
Definition get_or0 (d : gmap string pyval) (k : string) : pyval :=
  let v := py_get d k (PNum (Fin 0)) in
  if truthy v then v else PNum (Fin 0).

(** ** Rate converter *)

(** [calculate_player_possessions] *)
Definition calculate_player_possessions (minutes : pyval) : res num :=
  if negb (truthy minutes) then Ok (Fin 1)
  else
    m ← as_num minutes;
    if nle m (Fin 0) then Ok (Fin 1)
    else ndiv (nmul m (Fin 100)) (Fin 240).

Record per100 : Type := {
  PTS100 : num; AST100 : num; ORB100 : num; DRB100 : num; STL100 : num;
  BLK100 : num; TOV100 : num; PF100 : num; PM100 : num }.

(** [(stats_dict.get(k, 0) or 0) * 100 / player_poss].  On a string the
    product is a string and the quotient raises [TypeError]: the outcome
    is that of converting first. *)
Definition rate (d : gmap string pyval) (k : string) (player_poss : num) : res num :=
  x ← as_num (get_or0 d k);
  ndiv (nmul x (Fin 100)) player_poss.

(** [calculate_per_100_stats] *)
Definition calculate_per_100_stats (d : gmap string pyval) : res per100 :=
  let minutes := get_or0 d "MIN" in
  player_poss ← calculate_player_possessions minutes;
  if nle player_poss (Fin 0) then
    Ok {| PTS100 := Fin 0; AST100 := Fin 0; ORB100 := Fin 0; DRB100 := Fin 0;
          STL100 := Fin 0; BLK100 := Fin 0; TOV100 := Fin 0; PF100 := Fin 0;
          PM100 := Fin 0 |}
  else
    pts ← rate d "PTS" player_poss;
    ast ← rate d "AST" player_poss;
    orb ← rate d "OREB" player_poss;
    drb ← rate d "DREB" player_poss;
    stl ← rate d "STL" player_poss;
    blk ← rate d "BLK" player_poss;
    tov ← rate d "TOV" player_poss;
    pf ← rate d "PF" player_poss;
    pm ← rate d "PLUS_MINUS" player_poss;
    Ok {| PTS100 := pts; AST100 := ast; ORB100 := orb; DRB100 := drb;
          STL100 := stl; BLK100 := blk; TOV100 := tov; PF100 := pf;
          PM100 := pm |}.

(** [calculate_true_shooting].  [pts] is only used by the final division,
    so a non-numeric [PTS] goes unnoticed when [tsa <= 0]. *)
Definition calculate_true_shooting (d : gmap string pyval) : res num :=
  let pts := get_or0 d "PTS" in
  fta ← as_num (get_or0 d "FTA");
  fga ← as_num (get_or0 d "FGA");
  let tsa := nadd fga (nmul (Fin 0.44) fta) in
  if nle tsa (Fin 0) then Ok (Fin 0)
  else
    pts ← as_num pts;
    ndiv pts (nmul (Fin 2) tsa).

(** ** Position classifier *)

Inductive PositionGroup : Type := GUARD | WING | BIG.

#[global] Instance PositionGroup_eq_dec : EqDecision PositionGroup.
Proof. solve_decision. Defined.

Definition pos_name (g : PositionGroup) : string :=
  match g with GUARD => "GUARD" | WING => "WING" | BIG => "BIG" end.

Definition pos_of_name (s : string) : option PositionGroup :=
  if decide (s = "GUARD"%string) then Some GUARD
  else if decide (s = "WING"%string) then Some WING
  else if decide (s = "BIG"%string) then Some BIG
  else None.

(** [assign_position_group].  The lookups here have no [or 0]: a field
    that is present and [None] reaches the arithmetic. *)
Definition assign_position_group (d : gmap string pyval) : res PositionGroup :=
  oreb ← as_num (py_get d "OREB" (PNum (Fin 0)));
  dreb ← as_num (py_get d "DREB" (PNum (Fin 0)));
  gp ← as_num (py_get d "GP" (PNum (Fin 1)));
  reb_per_game ← ndiv (nadd oreb dreb) (nmax gp (Fin 1));
  ast ← as_num (py_get d "AST" (PNum (Fin 0)));
  ast_per_game ← ndiv ast (nmax gp (Fin 1));
  if nge reb_per_game (Fin 7) then Ok BIG
  else if nge ast_per_game (Fin 4) then Ok GUARD
  else Ok WING.

(** ** Defensive rates *)

Record def100 : Type := {
  def_DRB100 : num; def_STL100 : num; def_BLK100 : num; def_PF100 : num }.

(** [calculate_defensive_per_100_stats] *)
Definition calculate_defensive_per_100_stats (d : gmap string pyval) : res def100 :=
  let minutes := get_or0 d "MIN" in
  player_poss ← calculate_player_possessions minutes;
  if nle player_poss (Fin 0) then
    Ok {| def_DRB100 := Fin 0; def_STL100 := Fin 0; def_BLK100 := Fin 0;
          def_PF100 := Fin 0 |}
  else
    drb ← rate d "DREB" player_poss;
    stl ← rate d "STL" player_poss;
    blk ← rate d "BLK" player_poss;
    pf ← rate d "PF" player_poss;
    Ok {| def_DRB100 := drb; def_STL100 := stl; def_BLK100 := blk;
          def_PF100 := pf |}.

(** ** numpy reductions *)

Definition Rsum (l : list R) : R := foldr Rplus 0 l.
Definition Rmean (l : list R) : R := Rsum l / INR (length l).
Definition Rvar (l : list R) : R :=
  Rmean (map (fun x => (x - Rmean l) * (x - Rmean l)) l).
Definition Rstd (l : list R) : R := sqrt (Rvar l).

(** The finite content of an array, if every entry is finite. *)
Fixpoint finite_values (l : list num) : option (list R) :=
  match l with
  | [] => Some []
  | Fin x :: l' => cons x <$> finite_values l'
  | NaN :: _ => None
  end.

(** [np.mean]: [nan] on an empty array or when an entry is [nan]. *)
Definition np_mean (l : list num) : num :=
  match finite_values l with
  | Some (x :: xs) => Fin (Rmean (x :: xs))
  | _ => NaN
  end.

(** [np.std] (population standard deviation, [ddof = 0]). *)
Definition np_std (l : list num) : num :=
  match finite_values l with
  | Some (x :: xs) => Fin (Rstd (x :: xs))
  | _ => NaN
  end.

(** ** Reference distributions *)

Record def_dist : Type := {
  DRB100_mean : num; DRB100_std : num;
  STL100_mean : num; STL100_std : num;
  BLK100_mean : num; BLK100_std : num;
  PF100_mean : num; PF100_std : num }.

(** The dictionary the builder returns: twelve league-wide entries and
    the nested ['position_stats'] dictionary, keyed by group name. *)
Record league_stats : Type := {
  TS_mean : num; TS_std : num;
  PTS100_mean : num; PTS100_std : num;
  AST100_mean : num; AST100_std : num;
  ORB100_mean : num; ORB100_std : num;
  TOV100_mean : num; TOV100_std : num;
  PM100_mean : num; PM100_std : num;
  position_stats : gmap string def_dist }.

Fixpoint res_mapM {A B : Type} (f : A → res B) (l : list A) : res (list B) :=
  match l with
  | [] => Ok []
  | a :: l' => b ← f a; bs ← res_mapM f l'; Ok (b :: bs)
  end.

(** [(p.get('MIN', 0) or 0) >= min_minutes] *)
Definition qualifies (min_minutes : R) (p : gmap string pyval) : res bool :=
  m ← as_num (get_or0 p "MIN");
  Ok (nge m (Fin min_minutes)).

(** [p['POSITION_GROUP'] = g]: an update of the caller's dictionary. *)
Definition set_position_group (p : gmap string pyval) (g : PositionGroup)
  : gmap string pyval :=
  <["POSITION_GROUP" := PStr (pos_name g)]> p.

(** The first loop of the builder.  It returns the population as the loop
    leaves it and the list [qualified_players]; when a record makes the
    loop raise, the writes already done are not reported.  The entries of
    [qualified_players] are the caller's own dictionaries, so each appears
    updated in both lists.  What is written depends only on the record's
    other fields: a dictionary listed twice is written twice with the
    same value. *)
Fixpoint qualify_loop (min_minutes : R) (ps : list (gmap string pyval))
  : res (list (gmap string pyval) * list (gmap string pyval)) :=
  match ps with
  | [] => Ok ([], [])
  | p :: rest =>
      q ← qualifies min_minutes p;
      if (q : bool) then
        g ← assign_position_group p;
        let p' := set_position_group p g in
        r ← qualify_loop min_minutes rest;
        Ok (p' :: r.1, p' :: r.2)
      else
        r ← qualify_loop min_minutes rest;
        Ok (p :: r.1, r.2)
  end.

(** [dict(p, POSITION_GROUP=assign_position_group(p))]: a fresh copy. *)
Definition labelled_copy (p : gmap string pyval) : res (gmap string pyval) :=
  g ← assign_position_group p;
  Ok (set_position_group p g).

(** [pos = p['POSITION_GROUP']] followed by [position_groups[pos]]. *)
Definition read_position_group (p : gmap string pyval) : res PositionGroup :=
  match p !! "POSITION_GROUP" with
  | Some (PStr s) =>
      match pos_of_name s with Some g => Ok g | None => Raise KeyError end
  | _ => Raise KeyError
  end.

(** The entries appended to [position_groups[pos]], in order. *)
Fixpoint group_members (pos : PositionGroup)
    (groups : list PositionGroup) (defs : list def100) : list def100 :=
  match groups, defs with
  | g :: gs, d :: ds =>
      if decide (g = pos) then d :: group_members pos gs ds
      else group_members pos gs ds
  | _, _ => []
  end.

(** [max(np.std(values), 0.1)] *)
Definition floored_std (values : list num) : num :=
  nmax (np_std values) (Fin 0.1).

Definition def_dist_of (players : list def100) : def_dist :=
  {| DRB100_mean := np_mean (map def_DRB100 players);
     DRB100_std := floored_std (map def_DRB100 players);
     STL100_mean := np_mean (map def_STL100 players);
     STL100_std := floored_std (map def_STL100 players);
     BLK100_mean := np_mean (map def_BLK100 players);
     BLK100_std := floored_std (map def_BLK100 players);
     PF100_mean := np_mean (map def_PF100 players);
     PF100_std := floored_std (map def_PF100 players) |}.

(** One turn of [for pos, players in position_groups.items()]. *)
Definition add_position (groups : list PositionGroup) (defs : list def100)
    (pos : PositionGroup) (position_stats : gmap string def_dist)
  : gmap string def_dist :=
  let players := group_members pos groups defs in
  if decide (length players < 3)%nat then position_stats
  else <[pos_name pos := def_dist_of players]> position_stats.

(** [calculate_position_based_z_scores] (the code before its [return];
    the text after it never runs). *)
Definition calculate_position_based_z_scores
    (all_players_data : list (gmap string pyval)) (min_minutes : R)
  : res (list (gmap string pyval) * league_stats) :=
  r ← qualify_loop min_minutes all_players_data;
  let population := r.1 in
  qualified_players ←
    (if decide (length r.2 = 0%nat)
     then res_mapM labelled_copy all_players_data
     else Ok r.2);
  all_def_100 ← res_mapM calculate_defensive_per_100_stats qualified_players;
  all_per_100 ← res_mapM calculate_per_100_stats qualified_players;
  all_ts ← res_mapM calculate_true_shooting qualified_players;
  groups ← res_mapM read_position_group qualified_players;
  let position_stats :=
    add_position groups all_def_100 BIG
      (add_position groups all_def_100 WING
         (add_position groups all_def_100 GUARD ∅)) in
  Ok (population,
      {| TS_mean := np_mean all_ts;
         TS_std := floored_std all_ts;
         PTS100_mean := np_mean (map PTS100 all_per_100);
         PTS100_std := floored_std (map PTS100 all_per_100);
         AST100_mean := np_mean (map AST100 all_per_100);
         AST100_std := floored_std (map AST100 all_per_100);
         ORB100_mean := np_mean (map ORB100 all_per_100);
         ORB100_std := floored_std (map ORB100 all_per_100);
         TOV100_mean := np_mean (map TOV100 all_per_100);
         TOV100_std := floored_std (map TOV100 all_per_100);
         PM100_mean := np_mean (map PM100 all_per_100);
         PM100_std := floored_std (map PM100 all_per_100);
         position_stats := position_stats |}).

(** ** Z-score composer *)

(** [(value - mean) / std].  The deviations the builder returns are at
    least 0.1 or [nan], so for its results the divisor is never 0. *)
Definition z_score (value mean std : num) : res num :=
  ndiv (nsub value mean) std.

(** [calculate_ovibe_z] *)
Definition calculate_ovibe_z (d : gmap string pyval) (ls : league_stats) : res num :=
  per_100 ← calculate_per_100_stats d;
  ts_pct ← calculate_true_shooting d;
  z_ts ← z_score ts_pct (TS_mean ls) (TS_std ls);
  z_pts100 ← z_score (PTS100 per_100) (PTS100_mean ls) (PTS100_std ls);
  z_ast100 ← z_score (AST100 per_100) (AST100_mean ls) (AST100_std ls);
  z_orb100 ← z_score (ORB100 per_100) (ORB100_mean ls) (ORB100_std ls);
  z_tov100 ← z_score (TOV100 per_100) (TOV100_mean ls) (TOV100_std ls);
  Ok (nsub (nadd (nadd (nadd (nmul (Fin 1.8) z_ts) (nmul (Fin 1.2) z_pts100))
                        (nmul (Fin 1.3) z_ast100))
                  (nmul (Fin 0.8) z_orb100))
            (nmul (Fin 1.4) z_tov100)).

(** The weighted sum that closes [calculate_dvibe_z]. *)
Definition dvibe_blend (z_stl100 z_blk100 z_drb100 z_pf100 : num) : num :=
  nsub (nadd (nadd (nmul (Fin 1.3) z_stl100) (nmul (Fin 1.1) z_blk100))
             (nmul (Fin 0.5) z_drb100))
       (nmul (Fin 1.0) z_pf100).

(** [calculate_dvibe_z].  A group with an entry in ['position_stats']
    always has all eight statistics, so the defaults of the inner [get]
    calls are never used. *)
Definition calculate_dvibe_z (d : gmap string pyval) (ls : league_stats) : res num :=
  def_100 ← calculate_defensive_per_100_stats d;
  position ← assign_position_group d;
  match position_stats ls !! pos_name position with
  | None => Ok (dvibe_blend (Fin 0) (Fin 0) (Fin 0) (Fin 0))
  | Some pos_stats =>
      z_stl100 ← z_score (def_STL100 def_100) (STL100_mean pos_stats) (STL100_std pos_stats);
      z_blk100 ← z_score (def_BLK100 def_100) (BLK100_mean pos_stats) (BLK100_std pos_stats);
      z_drb100 ← z_score (def_DRB100 def_100) (DRB100_mean pos_stats) (DRB100_std pos_stats);
      z_pf100 ← z_score (def_PF100 def_100) (PF100_mean pos_stats) (PF100_std pos_stats);
      Ok (dvibe_blend z_stl100 z_blk100 z_drb100 z_pf100)
  end.

(** [calculate_impact_z] *)
Definition calculate_impact_z (d : gmap string pyval) (ls : league_stats) : res num :=
  per_100 ← calculate_per_100_stats d;
  z_score (PM100 per_100) (PM100_mean ls) (PM100_std ls).

(** [calculate_defensive_raw] *)
Definition calculate_defensive_raw (d : gmap string pyval) : res num :=
  drb ← as_num (get_or0 d "DREB");
  stl ← as_num (get_or0 d "STL");
  blk ← as_num (get_or0 d "BLK");
  pf ← as_num (get_or0 d "PF");
  Ok (nsub (nadd (nadd (nmul (Fin 1.0) drb) (nmul (Fin 1.5) stl))
                 (nmul (Fin 1.3) blk))
           (nmul (Fin 0.5) pf)).

(** [calculate_offensive_raw] is called by [calculate_vibe_box_score] but
    the module binds no such name: the call raises [NameError] before any
    argument is looked at. *)
Definition calculate_offensive_raw (d : gmap string pyval) : res num :=
  Raise NameError.

(** [calculate_vibe_box_score] *)
Definition calculate_vibe_box_score (d : gmap string pyval) : res num :=
  minutes ← as_num (get_or0 d "MIN");
  if nle minutes (Fin 0) then Ok (Fin 0)
  else
    player_poss ← calculate_player_possessions (PNum minutes);
    o_raw ← calculate_offensive_raw d;
    ovibe ← (if ngt player_poss (Fin 0)
             then ndiv (nmul (Fin 100) o_raw) player_poss else Ok (Fin 0));
    d_raw ← calculate_defensive_raw d;
    dvibe ← (if ngt player_poss (Fin 0)
             then ndiv (nmul (Fin 100) d_raw) player_poss else Ok (Fin 0));
    Ok (nadd (nmul (Fin 0.6) ovibe) (nmul (Fin 0.4) dvibe)).

(** [minutes / (minutes + 600)] *)
Definition shrink_factor (minutes : num) : res num :=
  ndiv minutes (nadd minutes (Fin 600)).

(** What [calculate_vibe_advanced] returns: a bare score on the
    box-score path, a dictionary otherwise. *)
Inductive vibe_out : Type :=
  | Score (x : num)
  | Breakdown (r : gmap string pyval).

(** [calculate_vibe_advanced] *)
Definition calculate_vibe_advanced (d : gmap string pyval)
    (league : option league_stats) : res vibe_out :=
  match league with
  | None => x ← calculate_vibe_box_score d; Ok (Score x)
  | Some ls =>
      ovibe_z ← calculate_ovibe_z d ls;
      dvibe_z ← calculate_dvibe_z d ls;
      impact_z ← calculate_impact_z d ls;
      let skill_z := nadd (nmul (Fin 0.6) ovibe_z) (nmul (Fin 0.4) dvibe_z) in
      let vibe_raw := nadd (nmul (Fin 0.65) skill_z) (nmul (Fin 0.35) impact_z) in
      minutes ← as_num (get_or0 d "MIN");
      shrink ← shrink_factor minutes;
      let vibe_shrunk := nmul vibe_raw shrink in
      Ok (Breakdown
            (<["OVIBE" := PNum ovibe_z]>
             (<["DVIBE" := PNum dvibe_z]>
              (<["Impact" := PNum impact_z]>
               (<["Skill" := PNum skill_z]>
                (<["VIBE_raw" := PNum vibe_raw]>
                 (<["VIBE_shrunk" := PNum vibe_shrunk]>
                  (<["minutes" := PNum minutes]>
                   (<["shrink_factor" := PNum shrink]> (∅ : gmap string pyval))))))))))
  end.

(** ** League normalizer *)

(** Round to the nearest integer, ties to the even one. *)
Definition rint (y : R) : Z :=
  let f := Int_part y in
  let frac := y - IZR f in
  if decide (frac < 1 / 2) then f
  else if decide (1 / 2 < frac) then (f + 1)%Z
  else if Z.even f then f else (f + 1)%Z.

(** [round(x, 1)] *)
Definition round1 (x : R) : R := IZR (rint (x * 10)) / 10.

Definition nround1 (x : num) : num :=
  match x with Fin r => Fin (round1 r) | NaN => NaN end.

(** [result['VIBE_shrunk']] *)
Definition vibe_shrunk_of (result : gmap string pyval) : res pyval :=
  match result !! "VIBE_shrunk" with
  | Some v => Ok v
  | None => Raise KeyError
  end.

(** The body of the final loop. *)
Definition rescale (mean_v std_v : num) (result : gmap string pyval)
  : res (gmap string pyval) :=
  v ← vibe_shrunk_of result;
  x ← as_num v;
  q ← ndiv (nmul (Fin 15) (nsub x mean_v)) std_v;
  let vibe_final := nadd (Fin 100) q in
  Ok (<["VIBE" := PNum (nround1 vibe_final)]> result).

(** [calculate_final_vibe_scores].  The results are updated in place and
    the same list is returned; the model returns the updated list. *)
Definition calculate_final_vibe_scores (all_vibe_results : list (gmap string pyval))
  : res (list (gmap string pyval)) :=
  shrunk_scores ← res_mapM vibe_shrunk_of all_vibe_results;
  if decide (length shrunk_scores = 0%nat) then Ok all_vibe_results
  else
    values ← res_mapM as_num shrunk_scores;
    let mean_v := np_mean values in
    let std_v := np_std values in
    let std_v := if nle std_v (Fin 0) then Fin 1.0 else std_v in
    res_mapM (rescale mean_v std_v) all_vibe_results.

(** ** Display helpers *)

(** [normalize_vibe_score]; the defaults [league_mean=0] and
    [league_std=1] are passed by the caller. *)
Definition normalize_vibe_score (vibe_value league_mean league_std : pyval)
  : res num :=
  s ← as_num league_std;
  if nle s (Fin 0) then Ok (Fin 100)
  else
    v ← as_num vibe_value;
    m ← as_num league_mean;
    q ← ndiv (nmul (Fin 15) (nsub v m)) s;
    Ok (nround1 (nadd (Fin 100) q)).

(** [round(x, 2)] *)
Definition round2 (x : R) : R := IZR (rint (x * 100)) / 100.

Definition nround2 (x : num) : num :=
  match x with Fin r => Fin (round2 r) | NaN => NaN end.

(** [calculate_vibe_basic] *)
Definition calculate_vibe_basic (points assists : pyval) : res num :=
  match points, assists with
  | PNone, _ | _, PNone => Ok (Fin 0)
  | _, _ =>
      p ← as_num points;
      a ← as_num assists;
      Ok (nround2 (nadd p a))
  end.

(** ** The caller in [app.py] *)

(** The [stats_dict] literal of [add_player_advanced_metrics]: fourteen
    totals read with [row.get(k, 0)].  Games played is not among them. *)
Definition stats_dict (row : gmap string pyval) : gmap string pyval :=
  let get k := py_get row k (PNum (Fin 0)) in
  <["MIN" := get "MIN"]>
  (<["PTS" := get "PTS"]>
  (<["AST" := get "AST"]>
  (<["OREB" := get "OREB"]>
  (<["DREB" := get "DREB"]>
  (<["FGA" := get "FGA"]>
  (<["FGM" := get "FGM"]>
  (<["FTA" := get "FTA"]>
  (<["FTM" := get "FTM"]>
  (<["TOV" := get "TOV"]>
  (<["STL" := get "STL"]>
  (<["BLK" := get "BLK"]>
  (<["PF" := get "PF"]>
  (<["PLUS_MINUS" := get "PLUS_MINUS"]> ∅))))))))))))).



(** * Vocabulary of the properties *)

(** ** Reading a stat line *)

(** A field the arithmetic accepts after [or 0]: missing, [None] or a
    finite number. *)
Definition numeric_field (d : gmap string pyval) (k : string) : Prop :=
  match d !! k with
  | None | Some PNone | Some (PNum (Fin _)) => True
  | _ => False
  end.

(** A field the arithmetic accepts as it is: missing or a finite number. *)
Definition finite_field (d : gmap string pyval) (k : string) : Prop :=
  match d !! k with
  | None | Some (PNum (Fin _)) => True
  | _ => False
  end.

(** The fields each part of the pipeline reads. *)
Definition rate_fields : list string :=
  ["MIN"; "PTS"; "AST"; "OREB"; "DREB"; "STL"; "BLK"; "TOV"; "PF"; "PLUS_MINUS"].
Definition shooting_fields : list string := ["PTS"; "FGA"; "FTA"].
Definition position_fields : list string := ["OREB"; "DREB"; "GP"; "AST"].

(** A PlayerStatLine: every total is a finite number or left out, and the
    totals that are read through [or 0] may also be [None]. *)
Definition stat_line (d : gmap string pyval) : Prop :=
  Forall (numeric_field d) (rate_fields ++ shooting_fields) ∧
  Forall (finite_field d) position_fields.

(** The number a field stands for, with [dflt] for a missing one. *)
Definition field_or (d : gmap string pyval) (k : string) (dflt : R) : R :=
  match d !! k with Some (PNum (Fin r)) => r | _ => dflt end.

(** The same with missing and [None] read as 0. *)
Definition stat_value (d : gmap string pyval) (k : string) : R := field_or d k 0.

(** The possessions estimate of the specification. *)
Definition possessions_of (m : R) : R :=
  if decide (0 < m) then m * 100 / 240 else 1.

(** The true-shooting value of the specification. *)
Definition true_shooting_of (pts fga fta : R) : R :=
  if decide (0 < fga + 0.44 * fta) then pts / (2 * (fga + 0.44 * fta)) else 0.

(** The classifier of the specification, on per-game averages. *)
Definition classify (reb_per_game ast_per_game : R) : PositionGroup :=
  if decide (7 <= reb_per_game) then BIG
  else if decide (4 <= ast_per_game) then GUARD
  else WING.

(** Sample stat lines. *)
Definition line_240_20 : gmap string pyval :=
  <["MIN" := PNum (Fin 240)]> (<["PTS" := PNum (Fin 20)]> ∅).
Definition line_0_10 : gmap string pyval :=
  <["MIN" := PNum (Fin 0)]> (<["PTS" := PNum (Fin 10)]> ∅).
Definition line_no_shots : gmap string pyval :=
  <["PTS" := PNum (Fin 12)]> (<["FGA" := PNum (Fin 0)]> (<["FTA" := PNone]> ∅)).
Definition line_big_passer : gmap string pyval :=
  <["GP" := PNum (Fin 10)]> (<["OREB" := PNum (Fin 30)]>
    (<["DREB" := PNum (Fin 50)]> (<["AST" := PNum (Fin 50)]> ∅))).

(** A computation that returns. *)
Definition returns {A : Type} (m : res A) : Prop := ∃ a, m = Ok a.

(** League statistics no z-score can divide by zero with. *)
Definition nonzero (x : num) : Prop := x ≠ Fin 0.

Definition usable_def_dist (p : def_dist) : Prop :=
  nonzero (STL100_std p) ∧ nonzero (BLK100_std p) ∧
  nonzero (DRB100_std p) ∧ nonzero (PF100_std p).

Definition usable_stats (ls : league_stats) : Prop :=
  nonzero (TS_std ls) ∧ nonzero (PTS100_std ls) ∧ nonzero (AST100_std ls) ∧
  nonzero (ORB100_std ls) ∧ nonzero (TOV100_std ls) ∧ nonzero (PM100_std ls) ∧
  map_Forall (fun _ p => usable_def_dist p) (position_stats ls).

(** League statistics with every mean 0, every deviation 1 and no
    position group. *)
Definition unit_league : league_stats :=
  {| TS_mean := Fin 0; TS_std := Fin 1;
     PTS100_mean := Fin 0; PTS100_std := Fin 1;
     AST100_mean := Fin 0; AST100_std := Fin 1;
     ORB100_mean := Fin 0; ORB100_std := Fin 1;
     TOV100_mean := Fin 0; TOV100_std := Fin 1;
     PM100_mean := Fin 0; PM100_std := Fin 1;
     position_stats := ∅ |}.

Definition line_600 : gmap string pyval :=
  <["MIN" := PNum (Fin 600)]> (<["PTS" := PNum (Fin 250)]> ∅).
Definition line_minus_600 : gmap string pyval :=
  <["MIN" := PNum (Fin (-600))]> ∅.
Definition line_none_rebounds : gmap string pyval :=
  <["MIN" := PNum (Fin 300)]> (<["OREB" := PNone]> ∅).

(** ** The population the builder works on *)

Definition rates_of (d : gmap string pyval) : per100 :=
  let poss := possessions_of (stat_value d "MIN") in
  {| PTS100 := Fin (stat_value d "PTS" * 100 / poss);
     AST100 := Fin (stat_value d "AST" * 100 / poss);
     ORB100 := Fin (stat_value d "OREB" * 100 / poss);
     DRB100 := Fin (stat_value d "DREB" * 100 / poss);
     STL100 := Fin (stat_value d "STL" * 100 / poss);
     BLK100 := Fin (stat_value d "BLK" * 100 / poss);
     TOV100 := Fin (stat_value d "TOV" * 100 / poss);
     PF100 := Fin (stat_value d "PF" * 100 / poss);
     PM100 := Fin (stat_value d "PLUS_MINUS" * 100 / poss) |}.

Definition def_rates_of (d : gmap string pyval) : def100 :=
  let poss := possessions_of (stat_value d "MIN") in
  {| def_DRB100 := Fin (stat_value d "DREB" * 100 / poss);
     def_STL100 := Fin (stat_value d "STL" * 100 / poss);
     def_BLK100 := Fin (stat_value d "BLK" * 100 / poss);
     def_PF100 := Fin (stat_value d "PF" * 100 / poss) |}.

Definition shooting_of (d : gmap string pyval) : num :=
  Fin (true_shooting_of (stat_value d "PTS") (stat_value d "FGA")
                        (stat_value d "FTA")).

(** The group of a stat line whose totals are numbers. *)
Definition group_of (d : gmap string pyval) : PositionGroup :=
  let gp := Rmax (field_or d "GP" 1) 1 in
  classify ((field_or d "OREB" 0 + field_or d "DREB" 0) / gp)
           (field_or d "AST" 0 / gp).

(** A player qualifies with at least [min_minutes] total minutes. *)
Definition meets_minutes (min_minutes : R) (d : gmap string pyval) : Prop :=
  min_minutes <= stat_value d "MIN".

#[global] Instance meets_minutes_dec min_minutes d :
  Decision (meets_minutes min_minutes d) := Rle_dec _ _.

(** The qualified players, or everybody when nobody qualifies. *)
Definition qualified_population (min_minutes : R)
    (pop : list (gmap string pyval)) : list (gmap string pyval) :=
  match filter (meets_minutes min_minutes) pop with
  | [] => pop
  | q => q
  end.

(** The qualified members of a group. *)
Definition group_population (min_minutes : R)
    (pop : list (gmap string pyval)) (g : PositionGroup)
  : list (gmap string pyval) :=
  filter (fun d => group_of d = g) (qualified_population min_minutes pop).

(** A stat line with its label attached. *)
Definition labelled (d : gmap string pyval) : gmap string pyval :=
  set_position_group d (group_of d).

(** The six league-wide deviations of the builder's result. *)
Definition league_stds (ls : league_stats) : list num :=
  [TS_std ls; PTS100_std ls; AST100_std ls; ORB100_std ls; TOV100_std ls;
   PM100_std ls].

(** The four deviations of a position group. *)
Definition def_stds (p : def_dist) : list num :=
  [DRB100_std p; STL100_std p; BLK100_std p; PF100_std p].

(** [x] is a number and at least [floor]. *)
Definition at_least (floor : R) (x : num) : Prop :=
  match x with Fin s => floor <= s | NaN => False end.

Definition line_300 : gmap string pyval := <["MIN" := PNum (Fin 300)]> ∅.

(** The caller's population after the builder has run. *)
Definition population_after (min_minutes : R)
    (pop : list (gmap string pyval)) : list (gmap string pyval) :=
  map (fun d => if decide (meets_minutes min_minutes d) then labelled d else d) pop.

(** The league statistics of a list of qualified players. *)
Definition league_of (q : list (gmap string pyval)) : league_stats :=
  let groups := map group_of q in
  let defs := map def_rates_of q in
  let rates := map rates_of q in
  let shots := map shooting_of q in
  {| TS_mean := np_mean shots;
     TS_std := floored_std shots;
     PTS100_mean := np_mean (map PTS100 rates);
     PTS100_std := floored_std (map PTS100 rates);
     AST100_mean := np_mean (map AST100 rates);
     AST100_std := floored_std (map AST100 rates);
     ORB100_mean := np_mean (map ORB100 rates);
     ORB100_std := floored_std (map ORB100 rates);
     TOV100_mean := np_mean (map TOV100 rates);
     TOV100_std := floored_std (map TOV100 rates);
     PM100_mean := np_mean (map PM100 rates);
     PM100_std := floored_std (map PM100 rates);
     position_stats :=
       add_position groups defs BIG
         (add_position groups defs WING
            (add_position groups defs GUARD ∅)) |}.

Definition is_finite (x : num) : Prop := ∃ r, x = Fin r.

Definition three_wings : list (gmap string pyval) := [line_300; line_600; line_300].

Definition finite_def_rates (p : def100) : Prop :=
  is_finite (def_DRB100 p) ∧ is_finite (def_STL100 p) ∧
  is_finite (def_BLK100 p) ∧ is_finite (def_PF100 p).

(** ** The league normalizer *)

(** [xs] are the [VIBE_shrunk] values of [results], in order. *)
Definition shrunk_values (results : list (gmap string pyval)) (xs : list R) : Prop :=
  Forall2 (fun r x => r !! "VIBE_shrunk" = Some (PNum (Fin x))) results xs.

(** The divisor of the rescale: the deviation, or 1 when it is not
    positive. *)
Definition league_std (xs : list R) : R :=
  if decide (Rstd xs <= 0) then 1 else Rstd xs.

(** The score before rounding. *)
Definition rescaled (xs : list R) (x : R) : R :=
  100 + 15 * (x - Rmean xs) / league_std xs.

Definition final_vibe (xs : list R) (x : R) : R := round1 (rescaled xs x).

(** A result with its final score set. *)
Definition annotate (xs : list R) (r : gmap string pyval) (x : R)
  : gmap string pyval :=
  <["VIBE" := PNum (Fin (final_vibe xs x))]> r.


Definition result_0 : gmap string pyval :=
  <["PLAYER_ID" := PNum (Fin 7)]> (<["VIBE_shrunk" := PNum (Fin 0)]> ∅).
Definition result_1 : gmap string pyval :=
  <["PLAYER_ID" := PNum (Fin 8)]> (<["VIBE_shrunk" := PNum (Fin 1)]> ∅).
Definition result_m1 : gmap string pyval :=
  <["PLAYER_ID" := PNum (Fin 9)]> (<["VIBE_shrunk" := PNum (Fin (-1))]> ∅).

(** ** Further vocabulary *)


(** The defensive part of a record of rates. *)
Definition defensive_part (r : per100) : def100 :=
  {| def_DRB100 := DRB100 r; def_STL100 := STL100 r;
     def_BLK100 := BLK100 r; def_PF100 := PF100 r |}.

(** League statistics in which every entry is a number. *)
Definition league_values (ls : league_stats) : list num :=
  [TS_mean ls; TS_std ls; PTS100_mean ls; PTS100_std ls;
   AST100_mean ls; AST100_std ls; ORB100_mean ls; ORB100_std ls;
   TOV100_mean ls; TOV100_std ls; PM100_mean ls; PM100_std ls].

Definition def_values (p : def_dist) : list num :=
  [DRB100_mean p; DRB100_std p; STL100_mean p; STL100_std p;
   BLK100_mean p; BLK100_std p; PF100_mean p; PF100_std p].

Definition finite_stats (ls : league_stats) : Prop :=
  Forall is_finite (league_values ls) ∧
  map_Forall (fun _ p => Forall is_finite (def_values p)) (position_stats ls).

(** The keys of the composer's breakdown. *)
Definition breakdown_keys : list string :=
  ["OVIBE"; "DVIBE"; "Impact"; "Skill"; "VIBE_raw"; "VIBE_shrunk"; "minutes";
   "shrink_factor"].

(** The totals the caller passes on. *)
Definition stats_keys : list string :=
  ["MIN"; "PTS"; "AST"; "OREB"; "DREB"; "FGA"; "FGM"; "FTA"; "FTM"; "TOV";
   "STL"; "BLK"; "PF"; "PLUS_MINUS"].

(** A season line: 82 games, 300 rebounds, 100 assists. *)
Definition line_season : gmap string pyval :=
  <["GP" := PNum (Fin 82)]> (<["MIN" := PNum (Fin 2000)]>
    (<["OREB" := PNum (Fin 100)]> (<["DREB" := PNum (Fin 200)]>
      (<["AST" := PNum (Fin 100)]> (<["PLAYER_ID" := PNum (Fin 23)]> ∅))))).



(** * Properties *)

(** ** Rate converter *)

Ltac split_fields :=
  repeat match goal with
  | H : stat_line _ |- _ => destruct H
  | H : Forall _ (_ ++ _) |- _ => apply Forall_app in H as [? ?]
  | H : Forall _ (_ :: _) |- _ => apply Forall_cons in H as [? ?]
  | H : Forall _ rate_fields |- _ => unfold rate_fields in H
  | H : Forall _ shooting_fields |- _ => unfold shooting_fields in H
  | H : Forall _ position_fields |- _ => unfold position_fields in H
  end.

(** Closes [Forall (numeric_field d) keys] on a concrete dictionary. *)
Ltac check_fields :=
  repeat first [ split | apply Forall_nil_2 | apply Forall_cons_2 ];
  unfold numeric_field, finite_field; simplify_map_eq; exact I.

Lemma get_or0_numeric d k :
  numeric_field d k → get_or0 d k = PNum (Fin (stat_value d k)).
Proof.
  unfold numeric_field, get_or0, py_get, stat_value, field_or.
  destruct (d !! k) as [[|[r|]|s]|]; simpl; try tauto; intros _; try reflexivity.
  - case_bool_decide; simpl; congruence.
  - rewrite bool_decide_true; reflexivity.
Qed.

Lemma py_get_finite d k dflt :
  finite_field d k → py_get d k (PNum (Fin dflt)) = PNum (Fin (field_or d k dflt)).
Proof.
  unfold finite_field, py_get, field_or.
  destruct (d !! k) as [[|[r|]|s]|]; simpl; tauto.
Qed.

Lemma possessions_of_pos m : 0 < possessions_of m.
Proof. unfold possessions_of. case_decide; lra. Qed.

Lemma ndiv_Fin x y : y ≠ 0 → ndiv (Fin x) (Fin y) = Ok (Fin (x / y)).
Proof. intros H. unfold ndiv. case_decide; [contradiction | reflexivity]. Qed.

Lemma nmax_Fin x y : nmax (Fin x) (Fin y) = Fin (Rmax x y).
Proof.
  unfold nmax, ngt, nlt, Rmax. case_bool_decide; destruct (Rle_dec x y); try reflexivity.
  - lra.
  - f_equal. lra.
Qed.

Lemma possessions_value m :
  calculate_player_possessions (PNum (Fin m)) = Ok (Fin (possessions_of m)).
Proof.
  unfold calculate_player_possessions, possessions_of. simpl.
  case_bool_decide as E; simpl.
  - subst m. case_decide; [lra | reflexivity].
  - case_bool_decide as E'; repeat case_decide; try lra; reflexivity.
Qed.

Lemma rate_numeric d k p :
  numeric_field d k → p ≠ 0 →
  rate d k (Fin p) = Ok (Fin (stat_value d k * 100 / p)).
Proof.
  intros H Hp. unfold rate. rewrite get_or0_numeric by assumption. simpl.
  case_decide; [contradiction | reflexivity].
Qed.

Lemma per_100_numeric d :
  Forall (numeric_field d) rate_fields →
  let poss := possessions_of (stat_value d "MIN") in
  calculate_per_100_stats d =
    Ok {| PTS100 := Fin (stat_value d "PTS" * 100 / poss);
          AST100 := Fin (stat_value d "AST" * 100 / poss);
          ORB100 := Fin (stat_value d "OREB" * 100 / poss);
          DRB100 := Fin (stat_value d "DREB" * 100 / poss);
          STL100 := Fin (stat_value d "STL" * 100 / poss);
          BLK100 := Fin (stat_value d "BLK" * 100 / poss);
          TOV100 := Fin (stat_value d "TOV" * 100 / poss);
          PF100 := Fin (stat_value d "PF" * 100 / poss);
          PM100 := Fin (stat_value d "PLUS_MINUS" * 100 / poss) |}.
Proof.
  intros H poss. split_fields. unfold calculate_per_100_stats.
  rewrite get_or0_numeric by assumption. rewrite possessions_value. simpl.
  pose proof (possessions_of_pos (stat_value d "MIN")) as Hpos. fold poss in Hpos |- *.
  rewrite bool_decide_false by lra.
  rewrite !rate_numeric by (assumption || lra). reflexivity.
Qed.

Lemma def_per_100_numeric d :
  Forall (numeric_field d) rate_fields →
  let poss := possessions_of (stat_value d "MIN") in
  calculate_defensive_per_100_stats d =
    Ok {| def_DRB100 := Fin (stat_value d "DREB" * 100 / poss);
          def_STL100 := Fin (stat_value d "STL" * 100 / poss);
          def_BLK100 := Fin (stat_value d "BLK" * 100 / poss);
          def_PF100 := Fin (stat_value d "PF" * 100 / poss) |}.
Proof.
  intros H poss. split_fields. unfold calculate_defensive_per_100_stats.
  rewrite get_or0_numeric by assumption. rewrite possessions_value. simpl.
  pose proof (possessions_of_pos (stat_value d "MIN")) as Hpos. fold poss in Hpos |- *.
  rewrite bool_decide_false by lra.
  rewrite !rate_numeric by (assumption || lra). reflexivity.
Qed.

Lemma true_shooting_numeric d :
  Forall (numeric_field d) shooting_fields →
  calculate_true_shooting d =
    Ok (Fin (true_shooting_of (stat_value d "PTS") (stat_value d "FGA")
                              (stat_value d "FTA"))).
Proof.
  intros H. split_fields. unfold calculate_true_shooting, true_shooting_of.
  rewrite !get_or0_numeric by assumption. simpl.
  case_bool_decide; repeat case_decide; try lra; reflexivity.
Qed.

Lemma position_group_finite d :
  Forall (finite_field d) position_fields →
  let gp := Rmax (field_or d "GP" 1) 1 in
  assign_position_group d =
    Ok (classify ((field_or d "OREB" 0 + field_or d "DREB" 0) / gp)
                 (field_or d "AST" 0 / gp)).
Proof.
  intros H gp. split_fields. unfold assign_position_group, classify.
  rewrite !py_get_finite by assumption. simpl. rewrite nmax_Fin. fold gp.
  assert (gp ≠ 0) by (unfold gp; pose proof (Rmax_r (field_or d "GP" 1) 1); lra).
  rewrite !ndiv_Fin by assumption. simpl.
  unfold nge, nle.
  repeat case_bool_decide; repeat case_decide; try lra; reflexivity.
Qed.

(** C5.  The possessions estimate is [minutes * 100 / 240] for positive
    minutes and 1 otherwise; every per-100 rate is the raw total (missing
    or [None] read as 0) times 100 over the possessions.  240 minutes and
    20 points give 100 possessions and 20 points per 100; 0 minutes and 10
    points give 1000 points per 100. *)
Theorem rate_conversion_correct (d : gmap string pyval)
    (Hd : Forall (numeric_field d) rate_fields) :
  let minutes := stat_value d "MIN" in
  let possessions := possessions_of minutes in
  (0 < minutes → possessions = minutes * 100 / 240) ∧
  (minutes <= 0 → possessions = 1) ∧
  calculate_player_possessions (get_or0 d "MIN") = Ok (Fin possessions) ∧
  calculate_per_100_stats d =
    Ok {| PTS100 := Fin (stat_value d "PTS" * 100 / possessions);
          AST100 := Fin (stat_value d "AST" * 100 / possessions);
          ORB100 := Fin (stat_value d "OREB" * 100 / possessions);
          DRB100 := Fin (stat_value d "DREB" * 100 / possessions);
          STL100 := Fin (stat_value d "STL" * 100 / possessions);
          BLK100 := Fin (stat_value d "BLK" * 100 / possessions);
          TOV100 := Fin (stat_value d "TOV" * 100 / possessions);
          PF100 := Fin (stat_value d "PF" * 100 / possessions);
          PM100 := Fin (stat_value d "PLUS_MINUS" * 100 / possessions) |} ∧
  calculate_player_possessions (PNum (Fin 240)) = Ok (Fin 100) ∧
  PTS100 <$> calculate_per_100_stats line_240_20 = Ok (Fin 20) ∧
  calculate_player_possessions (PNum (Fin 0)) = Ok (Fin 1) ∧
  PTS100 <$> calculate_per_100_stats line_0_10 = Ok (Fin 1000).
Proof.
  intros minutes possessions.
  assert (E240 : possessions_of 240 = 100)
    by (unfold possessions_of; case_decide; lra).
  assert (E0 : possessions_of 0 = 1)
    by (unfold possessions_of; case_decide; lra).
  split; [| split; [| split; [| split; [| split; [| split; [| split]]]]]].
  - intros Hm. unfold possessions, possessions_of. case_decide; [reflexivity | lra].
  - intros Hm. unfold possessions, possessions_of. case_decide; [lra | reflexivity].
  - rewrite get_or0_numeric by (split_fields; assumption). apply possessions_value.
  - apply per_100_numeric. assumption.
  - rewrite possessions_value, E240. reflexivity.
  - rewrite per_100_numeric by check_fields. simpl.
    unfold stat_value, field_or, line_240_20. simplify_map_eq.
    rewrite E240. do 2 f_equal. lra.
  - rewrite possessions_value, E0. reflexivity.
  - rewrite per_100_numeric by check_fields. simpl.
    unfold stat_value, field_or, line_0_10. simplify_map_eq.
    rewrite E0. do 2 f_equal. lra.
Qed.

Lemma rate_conversion_witness :
  Forall (numeric_field line_0_10) rate_fields ∧
  calculate_per_100_stats line_0_10 =
    Ok {| PTS100 := Fin 1000; AST100 := Fin 0; ORB100 := Fin 0;
          DRB100 := Fin 0; STL100 := Fin 0; BLK100 := Fin 0;
          TOV100 := Fin 0; PF100 := Fin 0; PM100 := Fin 0 |}.
Proof.
  assert (H : Forall (numeric_field line_0_10) rate_fields) by check_fields.
  split; [exact H |].
  destruct (rate_conversion_correct line_0_10 H) as (_ & _ & _ & E & _).
  rewrite E. unfold stat_value, field_or, line_0_10. simplify_map_eq.
  replace (possessions_of 0) with 1 by (unfold possessions_of; case_decide; lra).
  repeat f_equal; lra.
Defined.

(** C10.  True shooting is [PTS / (2 * (FGA + 0.44 * FTA))] when the
    attempts term is positive and 0 otherwise; with no attempts at all it
    is 0, a value and not an exception. *)
Theorem true_shooting_correct (d : gmap string pyval)
    (Hd : Forall (numeric_field d) shooting_fields) :
  let pts := stat_value d "PTS" in
  let fga := stat_value d "FGA" in
  let fta := stat_value d "FTA" in
  let tsa := fga + 0.44 * fta in
  (0 < tsa → calculate_true_shooting d = Ok (Fin (pts / (2 * tsa)))) ∧
  (tsa <= 0 → calculate_true_shooting d = Ok (Fin 0)) ∧
  (fga = 0 → fta = 0 → calculate_true_shooting d = Ok (Fin 0)).
Proof.
  intros pts fga fta tsa.
  rewrite true_shooting_numeric by assumption.
  unfold true_shooting_of. fold pts fga fta tsa.
  split; [| split].
  - intros H. case_decide; [reflexivity | lra].
  - intros H. case_decide; [lra | reflexivity].
  - intros Ha Hb. case_decide; [| reflexivity]. unfold tsa in *. lra.
Qed.

Lemma true_shooting_witness :
  Forall (numeric_field line_no_shots) shooting_fields ∧
  calculate_true_shooting line_no_shots = Ok (Fin 0).
Proof.
  assert (H : Forall (numeric_field line_no_shots) shooting_fields) by check_fields.
  split; [exact H |].
  destruct (true_shooting_correct line_no_shots H) as (_ & _ & E).
  apply E; unfold stat_value, field_or, line_no_shots; simplify_map_eq; reflexivity.
Defined.

(** ** Position classifier *)

(** C6.  With [reb_per_game = (OREB + DREB) / max(GP, 1)] and
    [ast_per_game = AST / max(GP, 1)], the classifier answers BIG when
    [reb_per_game >= 7], else GUARD when [ast_per_game >= 4], else WING;
    the rebound test comes first, so 8 rebounds and 5 assists per game is
    BIG.  It is a function, and it always answers one of the three. *)
Theorem position_classifier_correct (d : gmap string pyval)
    (Hd : Forall (finite_field d) position_fields) :
  let gp := Rmax (field_or d "GP" 1) 1 in
  let reb_per_game := (field_or d "OREB" 0 + field_or d "DREB" 0) / gp in
  let ast_per_game := field_or d "AST" 0 / gp in
  (7 <= reb_per_game → assign_position_group d = Ok BIG) ∧
  (reb_per_game < 7 → 4 <= ast_per_game → assign_position_group d = Ok GUARD) ∧
  (reb_per_game < 7 → ast_per_game < 4 → assign_position_group d = Ok WING) ∧
  (reb_per_game = 8 → ast_per_game = 5 → assign_position_group d = Ok BIG) ∧
  (∃ g, assign_position_group d = Ok g ∧ (g = GUARD ∨ g = WING ∨ g = BIG)).
Proof.
  intros gp reb_per_game ast_per_game.
  rewrite position_group_finite by assumption.
  fold gp. fold reb_per_game ast_per_game. unfold classify.
  repeat split.
  - intros H. case_decide; [reflexivity | lra].
  - intros H1 H2. repeat case_decide; try lra; reflexivity.
  - intros H1 H2. repeat case_decide; try lra; reflexivity.
  - intros H1 H2. case_decide; [reflexivity | lra].
  - eexists. split; [reflexivity |].
    repeat case_decide; auto.
Qed.

Lemma position_classifier_witness :
  Forall (finite_field line_big_passer) position_fields ∧
  assign_position_group line_big_passer = Ok BIG.
Proof.
  assert (H : Forall (finite_field line_big_passer) position_fields) by check_fields.
  split; [exact H |].
  destruct (position_classifier_correct line_big_passer H) as (_ & _ & _ & E & _).
  apply E; unfold field_or, line_big_passer; simplify_map_eq;
    rewrite Rmax_left by lra; lra.
Defined.

(** ** Z-score composer *)

Lemma returns_bind {A B : Type} (m : res A) (f : A → res B) :
  returns m → (∀ a, m = Ok a → returns (f a)) → returns (m ≫= f).
Proof. intros [a ->] H. simpl. apply H. reflexivity. Qed.

Lemma returns_Ok {A : Type} (a : A) : returns (Ok a).
Proof. eexists; reflexivity. Qed.

Lemma ndiv_returns a b : nonzero b → returns (ndiv a b).
Proof.
  unfold nonzero, ndiv. intros H. destruct b as [y|]; [| apply returns_Ok].
  case_decide; [subst; contradiction |]. destruct a; apply returns_Ok.
Qed.

Lemma z_score_returns v m s : nonzero s → returns (z_score v m s).
Proof. apply ndiv_returns. Qed.

Lemma stat_line_rate d : stat_line d → Forall (numeric_field d) rate_fields.
Proof. intros [H _]. apply Forall_app in H. tauto. Qed.

Lemma stat_line_shooting d : stat_line d → Forall (numeric_field d) shooting_fields.
Proof. intros [H _]. apply Forall_app in H. tauto. Qed.

Lemma stat_line_position d : stat_line d → Forall (finite_field d) position_fields.
Proof. intros [_ H]. exact H. Qed.

Lemma ovibe_returns d ls :
  stat_line d → usable_stats ls → returns (calculate_ovibe_z d ls).
Proof.
  intros Hd (H1 & H2 & H3 & H4 & H5 & _). unfold calculate_ovibe_z.
  rewrite per_100_numeric by (apply stat_line_rate; assumption).
  rewrite true_shooting_numeric by (apply stat_line_shooting; assumption).
  cbn [mbind res_bind].
  repeat (apply returns_bind; [apply z_score_returns; assumption | intros ? _]).
  apply returns_Ok.
Qed.

Lemma dvibe_returns d ls :
  stat_line d → usable_stats ls → returns (calculate_dvibe_z d ls).
Proof.
  intros Hd (_ & _ & _ & _ & _ & _ & Hp). unfold calculate_dvibe_z.
  rewrite def_per_100_numeric by (apply stat_line_rate; assumption).
  rewrite position_group_finite by (apply stat_line_position; assumption).
  cbn [mbind res_bind].
  destruct (position_stats ls !! _) as [p|] eqn:E; [| apply returns_Ok].
  destruct (Hp _ _ E) as (? & ? & ? & ?).
  repeat (apply returns_bind; [apply z_score_returns; assumption | intros ? _]).
  apply returns_Ok.
Qed.

Lemma impact_returns d ls :
  stat_line d → usable_stats ls → returns (calculate_impact_z d ls).
Proof.
  intros Hd (_ & _ & _ & _ & _ & H6 & _). unfold calculate_impact_z.
  rewrite per_100_numeric by (apply stat_line_rate; assumption).
  cbn [mbind res_bind]. apply z_score_returns; assumption.
Qed.

Lemma shrink_factor_value m :
  m ≠ -600 → shrink_factor (Fin m) = Ok (Fin (m / (m + 600))).
Proof.
  intros H. unfold shrink_factor. simpl. apply ndiv_Fin.
  intros E. apply H. lra.
Qed.


(** The dictionary of [calculate_vibe_advanced], from its parts. *)
Lemma vibe_advanced_value d ls ovibe_z dvibe_z impact_z m :
  calculate_ovibe_z d ls = Ok ovibe_z →
  calculate_dvibe_z d ls = Ok dvibe_z →
  calculate_impact_z d ls = Ok impact_z →
  numeric_field d "MIN" → stat_value d "MIN" = m → m ≠ -600 →
  let skill_z := nadd (nmul (Fin 0.6) ovibe_z) (nmul (Fin 0.4) dvibe_z) in
  let vibe_raw := nadd (nmul (Fin 0.65) skill_z) (nmul (Fin 0.35) impact_z) in
  let shrink := Fin (m / (m + 600)) in
  ∃ r, calculate_vibe_advanced d (Some ls) = Ok (Breakdown r) ∧
       r !! "OVIBE" = Some (PNum ovibe_z) ∧
       r !! "DVIBE" = Some (PNum dvibe_z) ∧
       r !! "Impact" = Some (PNum impact_z) ∧
       r !! "Skill" = Some (PNum skill_z) ∧
       r !! "VIBE_raw" = Some (PNum vibe_raw) ∧
       r !! "VIBE_shrunk" = Some (PNum (nmul vibe_raw shrink)) ∧
       r !! "minutes" = Some (PNum (Fin m)) ∧
       r !! "shrink_factor" = Some (PNum shrink).
Proof.
  intros Ho Hdv Hi Hmin Hm Hpos skill_z vibe_raw shrink.
  unfold calculate_vibe_advanced. rewrite Ho, Hdv, Hi.
  cbn [mbind res_bind]. rewrite get_or0_numeric by assumption. rewrite Hm.
  cbn [as_num mbind res_bind]. rewrite shrink_factor_value by assumption.
  cbn [mbind res_bind]. eexists. split; [reflexivity |].
  repeat split; simplify_map_eq; reflexivity.
Qed.

(** Reading the dictionary back: what any returned breakdown holds. *)
Lemma vibe_advanced_inv d ls r :
  calculate_vibe_advanced d (Some ls) = Ok (Breakdown r) →
  ∃ vibe_raw minutes shrink,
    shrink_factor minutes = Ok shrink ∧
    r !! "VIBE_raw" = Some (PNum vibe_raw) ∧
    r !! "minutes" = Some (PNum minutes) ∧
    r !! "shrink_factor" = Some (PNum shrink) ∧
    r !! "VIBE_shrunk" = Some (PNum (nmul vibe_raw shrink)).
Proof.
  unfold calculate_vibe_advanced.
  destruct (calculate_ovibe_z d ls) as [o|]; [| discriminate].
  destruct (calculate_dvibe_z d ls) as [dv|]; [| discriminate].
  destruct (calculate_impact_z d ls) as [i|]; [| discriminate].
  cbn [mbind res_bind].
  destruct (as_num (get_or0 d "MIN")) as [m|]; [| discriminate].
  cbn [mbind res_bind].
  destruct (shrink_factor m) as [s|] eqn:Es; [| discriminate].
  cbn [mbind res_bind]. intros [= <-].
  eexists _, m, s. split; [exact Es |].
  repeat split; simplify_map_eq; reflexivity.
Qed.

Lemma unit_league_usable : usable_stats unit_league.
Proof.
  unfold usable_stats, nonzero, unit_league; simpl.
  repeat (split; [intros [= E]; lra |]).
  apply map_Forall_empty.
Qed.



(** C2.  Three inputs on which the core raises.  Without league
    statistics and with positive minutes the box-score path calls a
    function the module does not define; a rebound field that is present
    and [None] reaches the classifier's sum; and at −600 minutes the
    shrink factor divides by zero. *)
Theorem core_raises :
  calculate_vibe_advanced line_240_20 None = Raise NameError ∧
  assign_position_group line_none_rebounds = Raise TypeError ∧
  calculate_position_based_z_scores [line_none_rebounds] 200 = Raise TypeError ∧
  calculate_vibe_advanced line_minus_600 (Some unit_league) = Raise ZeroDivisionError.
Proof.
  split; [| split; [| split]].
  - unfold calculate_vibe_advanced, calculate_vibe_box_score.
    rewrite get_or0_numeric by check_fields.
    replace (stat_value line_240_20 "MIN") with 240
      by (unfold stat_value, field_or, line_240_20; simplify_map_eq; reflexivity).
    cbn [as_num mbind res_bind nle]. rewrite bool_decide_false by lra.
    rewrite possessions_value. reflexivity.
  - unfold assign_position_group, py_get, line_none_rebounds.
    simplify_map_eq. reflexivity.
  - unfold calculate_position_based_z_scores, qualify_loop, qualifies.
    rewrite get_or0_numeric by check_fields.
    replace (stat_value line_none_rebounds "MIN") with 300
      by (unfold stat_value, field_or, line_none_rebounds; simplify_map_eq; reflexivity).
    cbn [as_num mbind res_bind nge nle]. rewrite bool_decide_true by lra.
    unfold assign_position_group, py_get, line_none_rebounds.
    simplify_map_eq. reflexivity.
  - assert (Hd : stat_line line_minus_600) by check_fields.
    destruct (ovibe_returns _ _ Hd unit_league_usable) as [o Ho].
    destruct (dvibe_returns _ _ Hd unit_league_usable) as [dv Hdv].
    destruct (impact_returns _ _ Hd unit_league_usable) as [i Hi].
    unfold calculate_vibe_advanced. rewrite Ho, Hdv, Hi.
    cbn [mbind res_bind]. rewrite get_or0_numeric by check_fields.
    replace (stat_value line_minus_600 "MIN") with (-600)
      by (unfold stat_value, field_or, line_minus_600; simplify_map_eq; reflexivity).
    cbn [as_num mbind res_bind]. unfold shrink_factor, ndiv, nadd.
    rewrite decide_True by lra. reflexivity.
Qed.

(** ** Reference distribution builder *)

Lemma per_100_value d :
  Forall (numeric_field d) rate_fields → calculate_per_100_stats d = Ok (rates_of d).
Proof. intros H. apply per_100_numeric. assumption. Qed.

Lemma def_per_100_value d :
  Forall (numeric_field d) rate_fields →
  calculate_defensive_per_100_stats d = Ok (def_rates_of d).
Proof. intros H. apply def_per_100_numeric. assumption. Qed.

Lemma position_group_value d :
  Forall (finite_field d) position_fields → assign_position_group d = Ok (group_of d).
Proof. intros H. apply position_group_finite. assumption. Qed.

Lemma labelled_lookup d k : k ≠ "POSITION_GROUP"%string → labelled d !! k = d !! k.
Proof. intros H. unfold labelled, set_position_group. apply lookup_insert_ne. congruence. Qed.

Lemma labelled_field_or d k dflt :
  k ≠ "POSITION_GROUP"%string → field_or (labelled d) k dflt = field_or d k dflt.
Proof. intros H. unfold field_or. rewrite labelled_lookup by assumption. reflexivity. Qed.

Lemma labelled_stat_line d : stat_line d → stat_line (labelled d).
Proof.
  intros [H1 H2]. split.
  - rewrite Forall_forall in *. intros k Hk. specialize (H1 k Hk).
    unfold numeric_field in *. rewrite labelled_lookup; [assumption |].
    intros ->. unfold rate_fields, shooting_fields in Hk. cbn [app] in Hk.
    repeat (apply elem_of_cons in Hk as [Hk | Hk]; [discriminate |]).
    apply elem_of_nil in Hk. contradiction.
  - rewrite Forall_forall in *. intros k Hk. specialize (H2 k Hk).
    unfold finite_field in *. rewrite labelled_lookup; [assumption |].
    intros ->. unfold position_fields in Hk.
    repeat (apply elem_of_cons in Hk as [Hk | Hk]; [discriminate |]).
    apply elem_of_nil in Hk. contradiction.
Qed.

Lemma labelled_stat_value d k :
  k ≠ "POSITION_GROUP"%string → stat_value (labelled d) k = stat_value d k.
Proof. apply labelled_field_or. Qed.

Lemma labelled_rates d : rates_of (labelled d) = rates_of d.
Proof. unfold rates_of. rewrite !labelled_stat_value by discriminate. reflexivity. Qed.

Lemma labelled_def_rates d : def_rates_of (labelled d) = def_rates_of d.
Proof. unfold def_rates_of. rewrite !labelled_stat_value by discriminate. reflexivity. Qed.

Lemma labelled_shooting d : shooting_of (labelled d) = shooting_of d.
Proof. unfold shooting_of. rewrite !labelled_stat_value by discriminate. reflexivity. Qed.

Lemma pos_of_name_name g : pos_of_name (pos_name g) = Some g.
Proof. destruct g; reflexivity. Qed.

Lemma read_labelled d : read_position_group (labelled d) = Ok (group_of d).
Proof.
  unfold read_position_group, labelled, set_position_group.
  rewrite lookup_insert_eq, pos_of_name_name. reflexivity.
Qed.

Lemma res_mapM_value {A B : Type} (f : A → res B) (g : A → B) (l : list A) :
  Forall (fun a => f a = Ok (g a)) l → res_mapM f l = Ok (map g l).
Proof.
  induction 1 as [| a l Ha _ IH]; simpl; [reflexivity |].
  rewrite Ha, IH. reflexivity.
Qed.

Lemma qualifies_value min_minutes d :
  numeric_field d "MIN" →
  qualifies min_minutes d = Ok (bool_decide (meets_minutes min_minutes d)).
Proof.
  intros H. unfold qualifies, meets_minutes.
  rewrite get_or0_numeric by assumption. reflexivity.
Qed.

Lemma stat_line_minutes d : stat_line d → numeric_field d "MIN".
Proof. intros H. apply stat_line_rate in H. split_fields. assumption. Qed.

(** What the first loop leaves behind: every qualifying record carries
    its label, in the caller's population as in [qualified_players]. *)
Lemma qualify_loop_value min_minutes pop :
  Forall stat_line pop →
  qualify_loop min_minutes pop =
    Ok (map (fun d => if decide (meets_minutes min_minutes d) then labelled d else d) pop,
        map labelled (filter (meets_minutes min_minutes) pop)).
Proof.
  induction 1 as [| d pop Hd _ IH]; [reflexivity |].
  cbn [qualify_loop]. rewrite qualifies_value by (apply stat_line_minutes; assumption).
  cbn [mbind res_bind]. rewrite IH. rewrite filter_cons.
  destruct (decide (meets_minutes min_minutes d)) as [Hq | Hq].
  - rewrite bool_decide_true by assumption.
    rewrite position_group_value by (apply stat_line_position; assumption).
    cbn [mbind res_bind map fst snd]. rewrite decide_True by assumption. reflexivity.
  - rewrite bool_decide_false by assumption.
    cbn [mbind res_bind map fst snd]. rewrite decide_False by assumption. reflexivity.
Qed.

Lemma labelled_copy_value d : stat_line d → labelled_copy d = Ok (labelled d).
Proof.
  intros H. unfold labelled_copy.
  rewrite position_group_value by (apply stat_line_position; assumption).
  reflexivity.
Qed.

Lemma mapM_labelled {B : Type} (f : gmap string pyval → res B)
    (g : gmap string pyval → B) (q : list (gmap string pyval)) :
  Forall stat_line q →
  (∀ d, stat_line d → f d = Ok (g d)) →
  (∀ d, g (labelled d) = g d) →
  res_mapM f (map labelled q) = Ok (map g q).
Proof.
  intros Hq Hf Hg. induction Hq as [| d q Hd _ IH]; [reflexivity |].
  cbn [map res_mapM]. rewrite Hf by (apply labelled_stat_line; assumption).
  rewrite Hg, IH. reflexivity.
Qed.

Lemma mapM_read_labelled (q : list (gmap string pyval)) :
  res_mapM read_position_group (map labelled q) = Ok (map group_of q).
Proof.
  induction q as [| d q IH]; [reflexivity |].
  cbn [map res_mapM]. rewrite read_labelled, IH. reflexivity.
Qed.

Lemma qualified_population_stat_lines min_minutes pop :
  Forall stat_line pop → Forall stat_line (qualified_population min_minutes pop).
Proof.
  intros H. unfold qualified_population.
  destruct (filter (meets_minutes min_minutes) pop) as [| d q] eqn:E; [assumption |].
  rewrite <- E. rewrite Forall_forall in *. intros x Hx.
  apply list_elem_of_filter in Hx as [_ Hx]. auto.
Qed.

(** The builder on a population of stat lines: it returns, the league
    statistics are those of the qualified population, and the caller's
    qualifying records have been written to. *)
Lemma builder_value min_minutes pop :
  Forall stat_line pop →
  calculate_position_based_z_scores pop min_minutes =
    Ok (population_after min_minutes pop,
        league_of (qualified_population min_minutes pop)).
Proof.
  intros Hpop. unfold calculate_position_based_z_scores.
  rewrite qualify_loop_value by assumption. cbn [mbind res_bind fst snd].
  pose proof (qualified_population_stat_lines min_minutes pop Hpop) as Hq.
  assert (Eq : (if decide (length (map labelled (filter (meets_minutes min_minutes) pop)) = 0%nat)
                then res_mapM labelled_copy pop
                else Ok (map labelled (filter (meets_minutes min_minutes) pop)))
               = Ok (map labelled (qualified_population min_minutes pop))).
  { unfold qualified_population.
    destruct (filter (meets_minutes min_minutes) pop) as [| d q]; cbn [map length].
    - rewrite decide_True by reflexivity. apply res_mapM_value.
      eapply Forall_impl; [exact Hpop |]. intros d Hd. apply labelled_copy_value. assumption.
    - rewrite decide_False by discriminate. reflexivity. }
  rewrite Eq. cbn [mbind res_bind].
  rewrite (mapM_labelled _ def_rates_of) by
    (try assumption; intros; first [apply def_per_100_value, stat_line_rate; assumption
                                   | apply labelled_def_rates]).
  cbn [mbind res_bind].
  rewrite (mapM_labelled _ rates_of) by
    (try assumption; intros; first [apply per_100_value, stat_line_rate; assumption
                                   | apply labelled_rates]).
  cbn [mbind res_bind].
  rewrite (mapM_labelled _ shooting_of) by
    (try assumption; intros; first [apply true_shooting_numeric, stat_line_shooting; assumption
                                   | apply labelled_shooting]).
  cbn [mbind res_bind]. rewrite mapM_read_labelled. reflexivity.
Qed.

(** *** The floor on standard deviations *)

Lemma Forall_map_intro {A B : Type} (P : B → Prop) (f : A → B) (l : list A) :
  (∀ a, P (f a)) → Forall P (map f l).
Proof. intros H. induction l; constructor; auto. Qed.

Lemma finite_values_Some (l : list num) :
  Forall is_finite l → ∃ rs, finite_values l = Some rs ∧ length rs = length l.
Proof.
  induction 1 as [| x l [r ->] _ (rs & E & Hlen)]; [exists []; split; reflexivity |].
  exists (r :: rs). cbn [finite_values]. rewrite E. split; [reflexivity |].
  cbn [length]. congruence.
Qed.

Lemma floored_std_at_least (values : list num) :
  Forall is_finite values → values ≠ [] → at_least 0.1 (floored_std values).
Proof.
  intros Hfin Hne. destruct (finite_values_Some values Hfin) as (rs & E & Hlen).
  unfold floored_std, np_std. rewrite E.
  destruct rs as [| r rs]; [destruct values; [contradiction | discriminate] |].
  rewrite nmax_Fin. simpl. apply Rmax_r.
Qed.

(** Whatever the array, empty or not, the floored deviation is never a
    number below 0.1 (on an empty array it is [nan]). *)
Lemma floored_std_never_below (values : list num) :
  nlt (floored_std values) (Fin 0.1) = false.
Proof.
  unfold floored_std. destruct (np_std values) as [s |]; [| reflexivity].
  rewrite nmax_Fin. simpl. apply bool_decide_false.
  pose proof (Rmax_r s 0.1). lra.
Qed.

Lemma group_members_Forall (P : def100 → Prop) pos groups defs :
  Forall P defs → Forall P (group_members pos groups defs).
Proof.
  intros H. revert groups. induction H as [| d defs Hd _ IH]; intros [| g groups];
    cbn [group_members]; try constructor.
  case_decide; [constructor; [assumption |] |]; apply IH.
Qed.

Lemma group_members_length pos (q : list (gmap string pyval)) :
  length (group_members pos (map group_of q) (map def_rates_of q)) =
  length (filter (fun d => group_of d = pos) q).
Proof.
  induction q as [| d q IH]; [reflexivity |].
  cbn [map group_members]. rewrite filter_cons.
  case_decide; cbn [length]; rewrite IH; reflexivity.
Qed.

(** What ['position_stats'] holds for a group. *)
Lemma position_stats_lookup groups defs g :
  add_position groups defs BIG
    (add_position groups defs WING
       (add_position groups defs GUARD ∅)) !! pos_name g =
  if decide (length (group_members g groups defs) < 3)%nat then None
  else Some (def_dist_of (group_members g groups defs)).
Proof.
  unfold add_position.
  destruct g; repeat case_decide; simplify_map_eq; (reflexivity || lia).
Qed.

Lemma add_position_Forall (P : string → def_dist → Prop) groups defs pos m :
  map_Forall P m →
  ((3 <= length (group_members pos groups defs))%nat →
   P (pos_name pos) (def_dist_of (group_members pos groups defs))) →
  map_Forall P (add_position groups defs pos m).
Proof.
  intros Hm Hp. unfold add_position. case_decide; [assumption |].
  apply map_Forall_insert_2; [apply Hp; lia | assumption].
Qed.

Lemma Forall_map_impl {A B : Type} (P : A → Prop) (Q : B → Prop)
    (f : A → B) (l : list A) :
  Forall P l → (∀ a, P a → Q (f a)) → Forall Q (map f l).
Proof. intros H HPQ. induction H; constructor; auto. Qed.

Lemma def_dist_of_at_least (players : list def100) :
  Forall finite_def_rates players → players ≠ [] →
  Forall (at_least 0.1) (def_stds (def_dist_of players)).
Proof.
  intros H Hne. unfold def_stds, def_dist_of. cbn.
  assert (Hmap : ∀ f : def100 → num, map f players ≠ [])
    by (intros f; destruct players; [contradiction | discriminate]).
  repeat (apply Forall_cons_2 || apply Forall_nil_2);
    (apply floored_std_at_least; [| apply Hmap]);
    (eapply Forall_map_impl; [exact H |]); intros p (? & ? & ? & ?); assumption.
Qed.

Lemma league_of_at_least (q : list (gmap string pyval)) :
  q ≠ [] →
  Forall (at_least 0.1) (league_stds (league_of q)) ∧
  map_Forall (fun _ p => Forall (at_least 0.1) (def_stds p))
             (position_stats (league_of q)).
Proof.
  intros Hne.
  assert (Hmap : ∀ (B : Type) (f : gmap string pyval → B), map f q ≠ [])
    by (intros B f; destruct q; [contradiction | discriminate]).
  split.
  - unfold league_stds, league_of. cbn.
    repeat (apply Forall_cons_2 || apply Forall_nil_2);
      rewrite ?map_map; (apply floored_std_at_least; [| apply Hmap]);
      apply Forall_map_intro; intros d; eexists; reflexivity.
  - unfold league_of. cbn.
    assert (Hdefs : Forall finite_def_rates (map def_rates_of q))
      by (apply Forall_map_intro; intros d; repeat split; eexists; reflexivity).
    repeat (apply add_position_Forall; [| intros Hlen;
      apply def_dist_of_at_least;
        [apply group_members_Forall; exact Hdefs
        | intros E; rewrite E in Hlen; cbn in Hlen; lia]]).
    apply map_Forall_empty.
Qed.

Lemma qualified_population_nonempty min_minutes pop :
  pop ≠ [] → qualified_population min_minutes pop ≠ [].
Proof.
  intros H. unfold qualified_population.
  destruct (filter (meets_minutes min_minutes) pop); [assumption | discriminate].
Qed.

(** C1 (amended).  The builder floors every standard deviation at 0.1,
    league-wide ones as well as position-scoped ones: on every non-empty
    population of stat lines it returns, and each [<stat>_std] of the
    league-wide distribution, and of every position group's distribution,
    is a number and at least 0.1. *)
Theorem league_std_floor (pop : list (gmap string pyval)) (min_minutes : R)
    (Hpop : Forall stat_line pop) (Hne : pop ≠ []) :
  ∃ pop' ls,
    calculate_position_based_z_scores pop min_minutes = Ok (pop', ls) ∧
    Forall (at_least 0.1) (league_stds ls) ∧
    map_Forall (fun _ p => Forall (at_least 0.1) (def_stds p)) (position_stats ls).
Proof.
  eexists _, _. split; [apply builder_value; assumption |].
  apply league_of_at_least, qualified_population_nonempty. assumption.
Qed.

Lemma Rstd_singleton x : Rstd [x] = 0.
Proof.
  unfold Rstd, Rvar, Rmean, Rsum. cbn.
  replace ((x - (x + 0) / 1) * (x - (x + 0) / 1) + 0) with 0 by (field; lra).
  replace (0 / 1) with 0 by lra. apply sqrt_0.
Qed.

Lemma line_300_stat_line : stat_line line_300.
Proof. check_fields. Qed.

Lemma line_300_meets : meets_minutes 200 line_300.
Proof.
  unfold meets_minutes, stat_value, field_or, line_300. simplify_map_eq. lra.
Qed.

Lemma line_300_group : group_of line_300 = WING.
Proof.
  unfold group_of, field_or, line_300. simplify_map_eq.
  unfold classify. rewrite Rmax_left by lra.
  repeat case_decide; try lra; reflexivity.
Qed.

Lemma league_std_floor_witness :
  Forall stat_line [line_300] ∧ [line_300] ≠ [] ∧
  ∃ pop' ls,
    calculate_position_based_z_scores [line_300] 200 = Ok (pop', ls) ∧
    Forall (at_least 0.1) (league_stds ls) ∧
    map_Forall (fun _ p => Forall (at_least 0.1) (def_stds p)) (position_stats ls).
Proof.
  assert (H : Forall stat_line [line_300])
    by (constructor; [exact line_300_stat_line | constructor]).
  assert (Hne : [line_300] ≠ []) by discriminate.
  split; [exact H | split; [exact Hne |]].
  exact (league_std_floor [line_300] 200 H Hne).
Defined.

(** C1 as stated fails: one qualified player gives a true-shooting
    deviation of 0.1, below 1.0. *)
Lemma league_std_floor_counterexample :
  ∃ pop' ls,
    calculate_position_based_z_scores [line_300] 200 = Ok (pop', ls) ∧
    TS_std ls = Fin 0.1 ∧
    ¬ Forall (at_least 1.0) (league_stds ls).
Proof.
  eexists _, _. split; [apply builder_value; constructor;
                         [exact line_300_stat_line | constructor] |].
  assert (Hq : qualified_population 200 [line_300] = [line_300]).
  { unfold qualified_population. rewrite filter_cons.
    rewrite decide_True by exact line_300_meets. reflexivity. }
  rewrite Hq.
  assert (E : TS_std (league_of [line_300]) = Fin 0.1).
  { unfold league_of. cbn. unfold floored_std, np_std, shooting_of. cbn.
    rewrite Rstd_singleton, nmax_Fin. f_equal. apply Rmax_right. lra. }
  split; [exact E |].
  intros Hall. unfold league_stds in Hall. apply Forall_cons in Hall as [Hts _].
  rewrite E in Hts. simpl in Hts. lra.
Qed.

(** *** Writes to the caller's records *)

Lemma population_after_unqualified min_minutes pop :
  filter (meets_minutes min_minutes) pop = [] →
  population_after min_minutes pop = pop.
Proof.
  unfold population_after. induction pop as [| d pop IH]; [reflexivity |].
  rewrite filter_cons. case_decide; [discriminate |].
  intros E. cbn [map]. rewrite IH by assumption.
  rewrite decide_False by assumption. reflexivity.
Qed.

(** The only key the builder writes is ['POSITION_GROUP']; every other
    field of every record is as the caller left it. *)
Lemma population_after_frame min_minutes pop i d d' k :
  pop !! i = Some d → population_after min_minutes pop !! i = Some d' →
  k ≠ "POSITION_GROUP"%string → d' !! k = d !! k.
Proof.
  unfold population_after. intros Hd Hd' Hk.
  change (map ?f ?l) with (f <$> l) in Hd'.
  rewrite list_lookup_fmap, Hd in Hd'. cbn in Hd'. injection Hd' as <-.
  case_decide; [apply labelled_lookup; assumption | reflexivity].
Qed.

(** C3.  With one qualified player the builder leaves the caller's
    record with a field it did not have: the label is written into the
    input dictionary itself, where the fallback branch labels a copy. *)
Theorem builder_writes_input :
  line_300 !! "POSITION_GROUP" = None ∧
  ∃ ls,
    calculate_position_based_z_scores [line_300] 200 =
      Ok ([<["POSITION_GROUP" := PStr "WING"]> line_300], ls) ∧
    [<["POSITION_GROUP" := PStr "WING"]> line_300] ≠ [line_300] ∧
    ∃ ls', calculate_position_based_z_scores [line_300] 400 = Ok ([line_300], ls').
Proof.
  split; [unfold line_300; simplify_map_eq; reflexivity |].
  assert (H : Forall stat_line [line_300])
    by (constructor; [exact line_300_stat_line | constructor]).
  eexists. split; [| split].
  - rewrite builder_value by exact H. unfold population_after. cbn [map].
    rewrite decide_True by exact line_300_meets.
    unfold labelled. rewrite line_300_group. reflexivity.
  - intros E.
    assert (E' := f_equal (fun l : list (gmap string pyval) =>
                             match l with
                             | x :: _ => x !! "POSITION_GROUP"
                             | [] => None
                             end) E).
    cbn beta iota in E'. rewrite lookup_insert_eq in E'.
    unfold line_300 in E'. simplify_map_eq.
  - eexists. rewrite builder_value by exact H.
    rewrite population_after_unqualified; [reflexivity |].
    rewrite filter_cons, decide_False; [reflexivity |].
    unfold meets_minutes, stat_value, field_or, line_300. simplify_map_eq. lra.
Qed.

(** *** Small position groups *)

Lemma league_of_position_stats q g :
  position_stats (league_of q) !! pos_name g =
  if decide (length (filter (fun d => group_of d = g) q) < 3)%nat then None
  else Some (def_dist_of
               (group_members g (map group_of q) (map def_rates_of q))).
Proof.
  unfold league_of. cbn [position_stats].
  rewrite position_stats_lookup, group_members_length. reflexivity.
Qed.

Lemma dvibe_blend_zero : dvibe_blend (Fin 0) (Fin 0) (Fin 0) (Fin 0) = Fin 0.
Proof. unfold dvibe_blend. cbn. f_equal. lra. Qed.

Lemma dvibe_without_distribution d ls g :
  Forall (numeric_field d) rate_fields →
  assign_position_group d = Ok g →
  position_stats ls !! pos_name g = None →
  calculate_dvibe_z d ls = Ok (Fin 0).
Proof.
  intros Hd Hg Hnone. unfold calculate_dvibe_z.
  rewrite def_per_100_value by assumption. rewrite Hg.
  cbn [mbind res_bind]. rewrite Hnone, dvibe_blend_zero. reflexivity.
Qed.

(** C7.  A position group with fewer than three qualified members gets
    no entry in ['position_stats'], and for every player the classifier
    puts in that group the composer's defensive score is 0: the four
    z-scores are set to 0, nothing is divided, nothing raises. *)
Theorem small_group_defaults (pop : list (gmap string pyval)) (min_minutes : R)
    (g : PositionGroup) (Hpop : Forall stat_line pop)
    (Hsmall : (length (group_population min_minutes pop g) < 3)%nat) :
  ∃ pop' ls,
    calculate_position_based_z_scores pop min_minutes = Ok (pop', ls) ∧
    position_stats ls !! pos_name g = None ∧
    ∀ d, Forall (numeric_field d) rate_fields →
         assign_position_group d = Ok g →
         calculate_dvibe_z d ls = Ok (Fin 0).
Proof.
  eexists _, _. split; [apply builder_value; assumption |].
  assert (Hnone : position_stats (league_of (qualified_population min_minutes pop))
                    !! pos_name g = None).
  { rewrite league_of_position_stats. unfold group_population in Hsmall.
    rewrite decide_True by exact Hsmall. reflexivity. }
  split; [exact Hnone |].
  intros d Hd Hg. eapply dvibe_without_distribution; eassumption.
Qed.

Lemma small_group_defaults_witness :
  Forall stat_line [line_300] ∧
  (length (group_population 200 [line_300] WING) < 3)%nat ∧
  ∃ pop' ls,
    calculate_position_based_z_scores [line_300] 200 = Ok (pop', ls) ∧
    position_stats ls !! pos_name WING = None ∧
    calculate_dvibe_z line_300 ls = Ok (Fin 0).
Proof.
  assert (H : Forall stat_line [line_300])
    by (constructor; [exact line_300_stat_line | constructor]).
  assert (Hs : (length (group_population 200 [line_300] WING) < 3)%nat).
  { unfold group_population. eapply Nat.le_lt_trans; [apply length_filter |].
    unfold qualified_population. rewrite filter_cons.
    rewrite decide_True by exact line_300_meets. cbn. lia. }
  split; [exact H | split; [exact Hs |]].
  destruct (small_group_defaults [line_300] 200 WING H Hs) as (pop' & ls & E & Hn & Hd).
  exists pop', ls. split; [exact E | split; [exact Hn |]].
  apply Hd.
  - apply stat_line_rate, line_300_stat_line.
  - rewrite position_group_value by (apply stat_line_position, line_300_stat_line).
    rewrite line_300_group. reflexivity.
Defined.

(** A group with three qualified members or more does get its entry. *)
Lemma large_group_distribution pop min_minutes g :
  Forall stat_line pop →
  (3 <= length (group_population min_minutes pop g))%nat →
  ∃ pop' ls p,
    calculate_position_based_z_scores pop min_minutes = Ok (pop', ls) ∧
    position_stats ls !! pos_name g = Some p ∧
    Forall (at_least 0.1) (def_stds p).
Proof.
  intros Hpop Hlarge.
  assert (Hne : pop ≠ []).
  { intros ->. cbn in Hlarge. lia. }
  apply (qualified_population_nonempty min_minutes) in Hne.
  destruct (league_of_at_least _ Hne) as [_ Hpos].
  eexists _, _, _. split; [apply builder_value; assumption |].
  assert (El : position_stats (league_of (qualified_population min_minutes pop))
                 !! pos_name g
               = Some (def_dist_of
                         (group_members g
                            (map group_of (qualified_population min_minutes pop))
                            (map def_rates_of (qualified_population min_minutes pop))))).
  { rewrite league_of_position_stats. unfold group_population in Hlarge.
    rewrite decide_False by lia. reflexivity. }
  split; [exact El |]. exact (Hpos _ _ El).
Qed.

Lemma line_600_group : group_of line_600 = WING.
Proof.
  unfold group_of, field_or, line_600. simplify_map_eq.
  unfold classify. rewrite Rmax_left by lra.
  repeat case_decide; try lra; reflexivity.
Qed.

Lemma line_600_meets : meets_minutes 200 line_600.
Proof.
  unfold meets_minutes, stat_value, field_or, line_600. simplify_map_eq. lra.
Qed.

Example three_wings_distribution :
  ∃ pop' ls p,
    calculate_position_based_z_scores three_wings 200 = Ok (pop', ls) ∧
    position_stats ls !! "WING" = Some p ∧
    position_stats ls !! "GUARD" = None.
Proof.
  assert (Hpop : Forall stat_line three_wings)
    by (repeat constructor; check_fields).
  assert (Hq : qualified_population 200 three_wings = three_wings).
  { unfold qualified_population, three_wings.
    rewrite !filter_cons, filter_nil.
    rewrite !decide_True by (apply line_300_meets || apply line_600_meets).
    reflexivity. }
  eexists _, _, _. split; [apply builder_value; exact Hpop |].
  rewrite Hq. split.
  - change "WING"%string with (pos_name WING).
    rewrite league_of_position_stats. unfold three_wings.
    rewrite !filter_cons, filter_nil, !line_300_group, !line_600_group.
    cbn. reflexivity.
  - change "GUARD"%string with (pos_name GUARD).
    rewrite league_of_position_stats. unfold three_wings.
    rewrite !filter_cons, filter_nil, !line_300_group, !line_600_group.
    cbn. reflexivity.
Qed.

(** *** Scoring against the builder's result *)

Lemma at_least_nonzero x : at_least 0.1 x → nonzero x.
Proof. destruct x as [s |]; cbn; [| tauto]. intros H [= E]. lra. Qed.

Lemma league_of_usable (q : list (gmap string pyval)) :
  q ≠ [] → usable_stats (league_of q).
Proof.
  intros Hne. destruct (league_of_at_least q Hne) as [Hl Hp].
  unfold league_stds in Hl.
  repeat (apply Forall_cons in Hl as [? Hl]).
  unfold usable_stats.
  repeat (split; [apply at_least_nonzero; assumption |]).
  intros k p Hk. specialize (Hp k p Hk). unfold def_stds in Hp. cbn beta in Hp.
  repeat (apply Forall_cons in Hp as [? Hp]).
  unfold usable_def_dist. repeat split; apply at_least_nonzero; assumption.
Qed.

(** With league statistics built from a non-empty population of stat
    lines, the composer returns a breakdown for every stat line whose
    minutes are not −600. *)
Lemma composer_returns pop min_minutes d :
  Forall stat_line pop → pop ≠ [] → stat_line d → stat_value d "MIN" ≠ -600 →
  ∃ pop' ls r,
    calculate_position_based_z_scores pop min_minutes = Ok (pop', ls) ∧
    calculate_vibe_advanced d (Some ls) = Ok (Breakdown r) ∧
    is_Some (r !! "VIBE_shrunk").
Proof.
  intros Hpop Hne Hd Hm.
  pose proof (league_of_usable _ (qualified_population_nonempty min_minutes pop Hne)) as Hu.
  set (ls := league_of (qualified_population min_minutes pop)) in *.
  destruct (ovibe_returns d ls Hd Hu) as [o Ho].
  destruct (dvibe_returns d ls Hd Hu) as [dv Hdv].
  destruct (impact_returns d ls Hd Hu) as [i Hi].
  destruct (vibe_advanced_value d ls o dv i _ Ho Hdv Hi (stat_line_minutes d Hd) eq_refl Hm)
    as (r & Hr & _ & _ & _ & _ & _ & Hs & _).
  exists (population_after min_minutes pop), ls, r.
  split; [apply builder_value; assumption |].
  split; [exact Hr |]. rewrite Hs. eexists; reflexivity.
Qed.

(** ** Mean and standard deviation of a list *)

Lemma Rabs_le_bounds a b : Rabs a <= b → - b <= a <= b.
Proof.
  intros H. pose proof (Rle_abs a). pose proof (Rle_abs (- a)) as H'.
  rewrite Rabs_Ropp in H'. lra.
Qed.

Section sums.
Context {A : Type}.
Implicit Types (f g : A → R) (l : list A).




Lemma Rsum_map_nonneg f l : (∀ a, 0 <= f a) → 0 <= Rsum (map f l).
Proof.
  intros H. induction l as [| a l IH]; [cbn; lra |].
  unfold Rsum in *. cbn. specialize (H a). lra.
Qed.





End sums.

Section moments.
Context {A : Type}.
Implicit Types (f g : A → R) (l : list A).

Lemma INR_length_pos l : l ≠ [] → 0 < INR (length l).
Proof.
  intros H. destruct l as [| a l]; [contradiction |].
  cbn [length]. rewrite S_INR. pose proof (pos_INR (length l)). lra.
Qed.

Lemma Rmean_map f l : Rmean (map f l) = Rsum (map f l) / INR (length l).
Proof. unfold Rmean. rewrite length_map. reflexivity. Qed.

Lemma Rvar_map f l :
  Rvar (map f l) =
  Rsum (map (fun a => (f a - Rmean (map f l)) * (f a - Rmean (map f l))) l)
  / INR (length l).
Proof. unfold Rvar. rewrite map_map. apply Rmean_map. Qed.

Lemma Rvar_map_nonneg f l : l ≠ [] → 0 <= Rvar (map f l).
Proof.
  intros H. rewrite Rvar_map. apply Rmult_le_pos.
  - apply Rsum_map_nonneg. intros a. apply Rle_0_sqr.
  - left. apply Rinv_0_lt_compat, INR_length_pos. assumption.
Qed.








End moments.

Lemma Rsum_map_zero {A : Type} (f : A → R) (l : list A) :
  (∀ a, 0 <= f a) → Rsum (map f l) = 0 → Forall (fun a => f a = 0) l.
Proof.
  intros Hf. induction l as [| a l IH]; [constructor |].
  intros H. unfold Rsum in *. cbn in H.
  pose proof (Hf a). pose proof (Rsum_map_nonneg f l Hf) as Hl. unfold Rsum in Hl.
  constructor; [lra | apply IH; lra].
Qed.

(** A list with standard deviation 0 is constant. *)
Lemma Rstd_zero_constant (l : list R) :
  l ≠ [] → Rstd l = 0 → Forall (fun x => x = Rmean l) l.
Proof.
  intros Hne H. pose proof (INR_length_pos l Hne) as Hn.
  rewrite <- (map_id l) in H at 1.
  unfold Rstd in H. apply sqrt_eq_0 in H; [| apply Rvar_map_nonneg; assumption].
  rewrite Rvar_map in H. rewrite map_id in H.
  assert (Hs : Rsum (map (fun a => (a - Rmean l) * (a - Rmean l)) l) = 0).
  { apply Rmult_eq_reg_r with (/ INR (length l)).
    - unfold Rdiv in H. lra.
    - apply Rinv_neq_0_compat. lra. }
  apply Rsum_map_zero in Hs; [| intros a; apply Rle_0_sqr].
  eapply Forall_impl; [exact Hs |]. intros a Ha. cbn beta in Ha. nra.
Qed.

(** *** Rounding to one decimal *)

Lemma rint_error y : Rabs (IZR (rint y) - y) <= 1 / 2.
Proof.
  unfold rint. destruct (base_Int_part y) as [H1 H2].
  apply Rabs_le.
  repeat case_decide; try destruct (Z.even (Int_part y));
    rewrite ?plus_IZR; lra.
Qed.

Lemma round1_error x : Rabs (round1 x - x) <= 0.05.
Proof.
  unfold round1. pose proof (rint_error (x * 10)) as H.
  apply Rabs_le_bounds in H. apply Rabs_le. lra.
Qed.

(** A value that already has one decimal is left alone. *)
Lemma round1_tenths (k : Z) : round1 (IZR k / 10) = IZR k / 10.
Proof.
  unfold round1, rint.
  replace (IZR k / 10 * 10) with (IZR k) by (field; lra).
  assert (E : Int_part (IZR k) = k) by (symmetry; apply Int_part_spec; lra).
  rewrite E. rewrite decide_True by lra. reflexivity.
Qed.

Lemma round1_100 : round1 100 = 100.
Proof.
  replace 100 with (IZR 1000 / 10) at 1 by lra.
  rewrite round1_tenths. lra.
Qed.

(** Ties go to the even tenth: 0.25 gives 0.2, 0.35 gives 0.4. *)
Example round1_tie_down : round1 0.25 = 0.2.
Proof.
  unfold round1, rint.
  assert (E : Int_part (0.25 * 10) = 2%Z) by (symmetry; apply Int_part_spec; lra).
  rewrite E. rewrite decide_False by lra. rewrite decide_False by lra.
  cbn. lra.
Qed.

Example round1_tie_up : round1 0.35 = 0.4.
Proof.
  unfold round1, rint.
  assert (E : Int_part (0.35 * 10) = 3%Z) by (symmetry; apply Int_part_spec; lra).
  rewrite E. rewrite decide_False by lra. rewrite decide_False by lra.
  cbn [Z.even]. rewrite plus_IZR. lra.
Qed.

(** ** League normalizer *)

Lemma Rstd_nonneg l : 0 <= Rstd l.
Proof. apply sqrt_pos. Qed.

Lemma league_std_pos xs : 0 < league_std xs.
Proof.
  unfold league_std. pose proof (Rstd_nonneg xs). case_decide; lra.
Qed.

Lemma finite_values_Fin (xs : list R) : finite_values (map Fin xs) = Some xs.
Proof.
  induction xs as [| x xs IH]; [reflexivity |].
  cbn [map finite_values]. rewrite IH. reflexivity.
Qed.

Lemma np_mean_Fin x xs : np_mean (map Fin (x :: xs)) = Fin (Rmean (x :: xs)).
Proof. unfold np_mean. rewrite finite_values_Fin. reflexivity. Qed.

Lemma np_std_Fin x xs : np_std (map Fin (x :: xs)) = Fin (Rstd (x :: xs)).
Proof. unfold np_std. rewrite finite_values_Fin. reflexivity. Qed.

Lemma shrunk_scores_value results xs :
  shrunk_values results xs →
  res_mapM vibe_shrunk_of results = Ok (map (fun x => PNum (Fin x)) xs).
Proof.
  induction 1 as [| r x results xs Hr _ IH]; [reflexivity |].
  cbn [res_mapM map].
  assert (E : vibe_shrunk_of r = Ok (PNum (Fin x)))
    by (unfold vibe_shrunk_of; rewrite Hr; reflexivity).
  rewrite E, IH. reflexivity.
Qed.

Lemma as_num_values (xs : list R) :
  res_mapM as_num (map (fun x => PNum (Fin x)) xs) = Ok (map Fin xs).
Proof.
  induction xs as [| x xs IH]; [reflexivity |].
  cbn [res_mapM map as_num mbind res_bind]. rewrite IH. reflexivity.
Qed.

Lemma rescale_value mean_v std_v r x :
  r !! "VIBE_shrunk" = Some (PNum (Fin x)) → std_v ≠ 0 →
  rescale (Fin mean_v) (Fin std_v) r =
    Ok (<["VIBE" := PNum (Fin (round1 (100 + 15 * (x - mean_v) / std_v)))]> r).
Proof.
  intros Hr Hs. unfold rescale, vibe_shrunk_of. rewrite Hr.
  cbn [mbind res_bind as_num nsub nmul]. rewrite ndiv_Fin by assumption.
  reflexivity.
Qed.

Lemma rescale_all ys results xs :
  shrunk_values results xs →
  res_mapM (rescale (Fin (Rmean ys)) (Fin (league_std ys))) results =
    Ok (zip_with (annotate ys) results xs).
Proof.
  pose proof (league_std_pos ys) as Hpos.
  induction 1 as [| r x results xs Hr _ IH]; [reflexivity |].
  cbn [res_mapM zip_with]. rewrite (rescale_value _ _ r x) by (assumption || lra).
  rewrite IH. reflexivity.
Qed.

(** The normalizer on a list of results: each gets its ['VIBE']. *)
Lemma normalizer_value results xs :
  shrunk_values results xs →
  calculate_final_vibe_scores results = Ok (zip_with (annotate xs) results xs).
Proof.
  intros H. unfold calculate_final_vibe_scores.
  rewrite (shrunk_scores_value results xs H). cbn [mbind res_bind].
  rewrite length_map.
  destruct H as [| r x results xs Hr H].
  - reflexivity.
  - rewrite decide_False by discriminate.
    rewrite as_num_values. cbn [mbind res_bind].
    rewrite np_mean_Fin, np_std_Fin. cbn [nle].
    assert (E : (if bool_decide (Rstd (x :: xs) <= 0) then Fin 1.0
                 else Fin (Rstd (x :: xs))) = Fin (league_std (x :: xs))).
    { unfold league_std. case_bool_decide.
      - rewrite decide_True by assumption. f_equal. lra.
      - rewrite decide_False by assumption. reflexivity. }
    rewrite E. apply rescale_all. constructor; assumption.
Qed.





(** *** The rescale invariant *)










(** * Further properties of the code *)

(** ** Rates *)

Lemma rate_per_100_inv d r :
  calculate_per_100_stats d = Ok r →
  (r = {| PTS100 := Fin 0; AST100 := Fin 0; ORB100 := Fin 0; DRB100 := Fin 0;
          STL100 := Fin 0; BLK100 := Fin 0; TOV100 := Fin 0; PF100 := Fin 0;
          PM100 := Fin 0 |} ∧
   ∃ p, calculate_player_possessions (get_or0 d "MIN") = Ok p ∧ nle p (Fin 0) = true) ∨
  ∃ p, calculate_player_possessions (get_or0 d "MIN") = Ok p ∧
       nle p (Fin 0) = false ∧
       rate d "DREB" p = Ok (DRB100 r) ∧ rate d "STL" p = Ok (STL100 r) ∧
       rate d "BLK" p = Ok (BLK100 r) ∧ rate d "PF" p = Ok (PF100 r).
Proof.
  unfold calculate_per_100_stats.
  destruct (calculate_player_possessions (get_or0 d "MIN")) as [p |]; [| discriminate].
  cbn [mbind res_bind]. destruct (nle p (Fin 0)) eqn:Ep.
  - intros [= <-]. left. split; [reflexivity |]. exists p. split; [reflexivity | exact Ep].
  - destruct (rate d "PTS" p); [| discriminate]. cbn [mbind res_bind].
    destruct (rate d "AST" p); [| discriminate]. cbn [mbind res_bind].
    destruct (rate d "OREB" p); [| discriminate]. cbn [mbind res_bind].
    destruct (rate d "DREB" p) eqn:E1; [| discriminate]. cbn [mbind res_bind].
    destruct (rate d "STL" p) eqn:E2; [| discriminate]. cbn [mbind res_bind].
    destruct (rate d "BLK" p) eqn:E3; [| discriminate]. cbn [mbind res_bind].
    destruct (rate d "TOV" p); [| discriminate]. cbn [mbind res_bind].
    destruct (rate d "PF" p) eqn:E4; [| discriminate]. cbn [mbind res_bind].
    destruct (rate d "PLUS_MINUS" p); [| discriminate]. cbn [mbind res_bind].
    intros [= <-]. right. exists p. cbn.
    repeat split; first [reflexivity | assumption].
Qed.

(** X1.  Whenever the full rate conversion returns, the defensive one
    returns the same four defensive rates. *)
Theorem defensive_rates_agree (d : gmap string pyval) (r : per100)
    (H : calculate_per_100_stats d = Ok r) :
  calculate_defensive_per_100_stats d = Ok (defensive_part r).
Proof.
  unfold calculate_defensive_per_100_stats, defensive_part.
  destruct (rate_per_100_inv d r H) as [[-> (p & Hp & Ep)] | (p & Hp & Ep & H1 & H2 & H3 & H4)];
    rewrite Hp; cbn [mbind res_bind]; rewrite Ep.
  - reflexivity.
  - rewrite H1, H2, H3, H4. reflexivity.
Qed.

Lemma defensive_rates_agree_witness :
  calculate_per_100_stats line_240_20 = Ok (rates_of line_240_20) ∧
  calculate_defensive_per_100_stats line_240_20 =
    Ok (defensive_part (rates_of line_240_20)).
Proof.
  assert (H : calculate_per_100_stats line_240_20 = Ok (rates_of line_240_20))
    by (apply per_100_value; check_fields).
  split; [exact H |]. exact (defensive_rates_agree _ _ H).
Defined.

(** *** What the per-player functions can raise *)










(** ** The box-score path *)

Lemma box_score_only_zero d x : calculate_vibe_box_score d = Ok x → x = Fin 0.
Proof.
  unfold calculate_vibe_box_score.
  destruct (as_num (get_or0 d "MIN")) as [m |]; [| discriminate].
  cbn [mbind res_bind]. destruct (nle m (Fin 0)); [congruence |].
  destruct (calculate_player_possessions (PNum m)); discriminate.
Qed.

(** X3.  Without league statistics the composer never produces a score
    other than 0: it answers 0.0 for a player with no positive minutes
    and raises [NameError] for every player with positive minutes. *)
Theorem box_score_path (d : gmap string pyval) (H : numeric_field d "MIN") :
  (stat_value d "MIN" <= 0 → calculate_vibe_advanced d None = Ok (Score (Fin 0))) ∧
  (0 < stat_value d "MIN" → calculate_vibe_advanced d None = Raise NameError) ∧
  (∀ out, calculate_vibe_advanced d None = Ok out → out = Score (Fin 0)).
Proof.
  unfold calculate_vibe_advanced. split; [| split].
  - intros Hm. unfold calculate_vibe_box_score.
    rewrite get_or0_numeric by assumption.
    cbn [as_num mbind res_bind nle]. rewrite bool_decide_true by assumption.
    reflexivity.
  - intros Hm. unfold calculate_vibe_box_score.
    rewrite get_or0_numeric by assumption.
    cbn [as_num mbind res_bind nle]. rewrite bool_decide_false by lra.
    rewrite possessions_value. reflexivity.
  - intros out. destruct (calculate_vibe_box_score d) as [x |] eqn:E; [| discriminate].
    cbn [mbind res_bind]. intros [= <-]. f_equal. eapply box_score_only_zero, E.
Qed.

Lemma box_score_path_witness :
  numeric_field line_0_10 "MIN" ∧
  calculate_vibe_advanced line_0_10 None = Ok (Score (Fin 0)).
Proof.
  assert (H : numeric_field line_0_10 "MIN")
    by (unfold numeric_field, line_0_10; simplify_map_eq; exact I).
  split; [exact H |].
  destruct (box_score_path line_0_10 H) as [E _]. apply E.
  unfold stat_value, field_or, line_0_10. simplify_map_eq. lra.
Defined.

(** ** Finite league statistics *)





Lemma z_score_Fin v m s :
  s ≠ 0 → z_score (Fin v) (Fin m) (Fin s) = Ok (Fin ((v - m) / s)).
Proof. intros H. unfold z_score. cbn [nsub]. apply ndiv_Fin. exact H. Qed.

Lemma z_score_finite v m s :
  is_finite m → is_finite s → nonzero s →
  ∃ z, z_score (Fin v) m s = Ok (Fin z).
Proof.
  intros [m' ->] [s' ->] Hs. eexists. apply z_score_Fin.
  intros ->. apply Hs. reflexivity.
Qed.

Ltac split_league :=
  repeat match goal with
  | H : finite_stats _ |- _ => destruct H as [? ?]
  | H : usable_stats _ |- _ => destruct H as (? & ? & ? & ? & ? & ? & ?)
  | H : usable_def_dist _ |- _ => destruct H as (? & ? & ? & ?)
  | H : Forall is_finite (league_values _) |- _ => unfold league_values in H
  | H : Forall is_finite (def_values _) |- _ => unfold def_values in H
  | H : Forall _ (_ :: _) |- _ => apply Forall_cons in H as [? ?]
  end.

Ltac step_z_score :=
  match goal with
  | |- context [z_score (Fin ?v) ?m ?s] =>
      let z := fresh "z" in
      let Hz := fresh "Hz" in
      destruct (z_score_finite v m s) as [z Hz]; [assumption .. |];
      rewrite Hz; cbn [mbind res_bind]
  end.

Lemma ovibe_finite d ls :
  stat_line d → usable_stats ls → finite_stats ls →
  ∃ o, calculate_ovibe_z d ls = Ok (Fin o).
Proof.
  intros Hd Hu Hf. split_league. unfold calculate_ovibe_z.
  rewrite per_100_numeric by (apply stat_line_rate; assumption).
  rewrite true_shooting_numeric by (apply stat_line_shooting; assumption).
  cbn [mbind res_bind PTS100 AST100 ORB100 TOV100].
  repeat step_z_score. eexists. reflexivity.
Qed.

Lemma dvibe_finite d ls :
  stat_line d → usable_stats ls → finite_stats ls →
  ∃ dv, calculate_dvibe_z d ls = Ok (Fin dv).
Proof.
  intros Hd Hu [_ Hf]. destruct Hu as (_ & _ & _ & _ & _ & _ & Hu).
  unfold calculate_dvibe_z.
  rewrite def_per_100_numeric by (apply stat_line_rate; assumption).
  rewrite position_group_finite by (apply stat_line_position; assumption).
  cbn [mbind res_bind].
  destruct (position_stats ls !! _) as [p |] eqn:E.
  - pose proof (Hu _ _ E) as Hup. pose proof (Hf _ _ E) as Hfp.
    cbn beta in Hup, Hfp. split_league.
    cbn [def_STL100 def_BLK100 def_DRB100 def_PF100].
    repeat step_z_score. eexists. reflexivity.
  - eexists. reflexivity.
Qed.

Lemma impact_finite d ls :
  stat_line d → usable_stats ls → finite_stats ls →
  ∃ i, calculate_impact_z d ls = Ok (Fin i).
Proof.
  intros Hd Hu Hf. split_league. unfold calculate_impact_z.
  rewrite per_100_numeric by (apply stat_line_rate; assumption).
  cbn [mbind res_bind PM100].
  destruct (z_score_finite (stat_value d "PLUS_MINUS" * 100
                            / possessions_of (stat_value d "MIN"))
              (PM100_mean ls) (PM100_std ls)) as [z Hz]; [assumption .. |].
  exists z. exact Hz.
Qed.

(** With finite league statistics the composer's breakdown is made of
    numbers. *)
Lemma composer_finite d ls :
  stat_line d → usable_stats ls → finite_stats ls →
  stat_value d "MIN" ≠ -600 →
  ∃ r o dv i,
    calculate_vibe_advanced d (Some ls) = Ok (Breakdown r) ∧
    calculate_ovibe_z d ls = Ok (Fin o) ∧
    calculate_dvibe_z d ls = Ok (Fin dv) ∧
    calculate_impact_z d ls = Ok (Fin i) ∧
    r !! "VIBE_raw" = Some (PNum (Fin (0.65 * (0.6 * o + 0.4 * dv) + 0.35 * i))) ∧
    r !! "VIBE_shrunk" =
      Some (PNum (Fin ((0.65 * (0.6 * o + 0.4 * dv) + 0.35 * i)
                       * (stat_value d "MIN" / (stat_value d "MIN" + 600))))) ∧
    r !! "minutes" = Some (PNum (Fin (stat_value d "MIN"))).
Proof.
  intros Hd Hu Hf Hm.
  destruct (ovibe_finite d ls Hd Hu Hf) as [o Ho].
  destruct (dvibe_finite d ls Hd Hu Hf) as [dv Hdv].
  destruct (impact_finite d ls Hd Hu Hf) as [i Hi].
  destruct (vibe_advanced_value d ls _ _ _ _ Ho Hdv Hi (stat_line_minutes d Hd) eq_refl Hm)
    as (r & Hr & _ & _ & _ & _ & Hraw & Hs & Hmin & _).
  exists r, o, dv, i. repeat split; assumption.
Qed.

(** ** The composer's breakdown *)

Lemma unit_league_finite : finite_stats unit_league.
Proof.
  split.
  - unfold league_values, unit_league. cbn.
    repeat (apply Forall_cons_2 || apply Forall_nil_2); eexists; reflexivity.
  - apply map_Forall_empty.
Qed.

Lemma vibe_advanced_breakdown d ls r :
  calculate_vibe_advanced d (Some ls) = Ok (Breakdown r) →
  ∃ ovibe_z dvibe_z impact_z minutes shrink,
    calculate_ovibe_z d ls = Ok ovibe_z ∧
    calculate_dvibe_z d ls = Ok dvibe_z ∧
    calculate_impact_z d ls = Ok impact_z ∧
    as_num (get_or0 d "MIN") = Ok minutes ∧
    shrink_factor minutes = Ok shrink ∧
    let skill_z := nadd (nmul (Fin 0.6) ovibe_z) (nmul (Fin 0.4) dvibe_z) in
    let vibe_raw := nadd (nmul (Fin 0.65) skill_z) (nmul (Fin 0.35) impact_z) in
    r = <["OVIBE" := PNum ovibe_z]>
        (<["DVIBE" := PNum dvibe_z]>
         (<["Impact" := PNum impact_z]>
          (<["Skill" := PNum skill_z]>
           (<["VIBE_raw" := PNum vibe_raw]>
            (<["VIBE_shrunk" := PNum (nmul vibe_raw shrink)]>
             (<["minutes" := PNum minutes]>
              (<["shrink_factor" := PNum shrink]> ∅))))))).
Proof.
  unfold calculate_vibe_advanced.
  destruct (calculate_ovibe_z d ls) as [o |]; [| discriminate].
  destruct (calculate_dvibe_z d ls) as [dv |]; [| discriminate].
  destruct (calculate_impact_z d ls) as [i |]; [| discriminate].
  cbn [mbind res_bind].
  destruct (as_num (get_or0 d "MIN")) as [m |]; [| discriminate].
  cbn [mbind res_bind].
  destruct (shrink_factor m) as [s |] eqn:Es; [| discriminate].
  cbn [mbind res_bind]. intros [= <-].
  exists o, dv, i, m, s. repeat split; reflexivity || assumption.
Qed.

(** X4.  Every breakdown the composer returns has exactly the eight keys
    OVIBE, DVIBE, Impact, Skill, VIBE_raw, VIBE_shrunk, minutes and
    shrink_factor, so no final ['VIBE'] yet; and its fields recombine:
    [Skill = 0.6 * OVIBE + 0.4 * DVIBE],
    [VIBE_raw = 0.65 * Skill + 0.35 * Impact]. *)
Theorem breakdown_shape (d : gmap string pyval) (ls : league_stats)
    (r : gmap string pyval)
    (E : calculate_vibe_advanced d (Some ls) = Ok (Breakdown r)) :
  dom r = list_to_set breakdown_keys ∧
  r !! "VIBE" = None ∧
  ∃ ovibe dvibe impact,
    r !! "OVIBE" = Some (PNum ovibe) ∧
    r !! "DVIBE" = Some (PNum dvibe) ∧
    r !! "Impact" = Some (PNum impact) ∧
    r !! "Skill" =
      Some (PNum (nadd (nmul (Fin 0.6) ovibe) (nmul (Fin 0.4) dvibe))) ∧
    r !! "VIBE_raw" =
      Some (PNum (nadd (nmul (Fin 0.65)
                          (nadd (nmul (Fin 0.6) ovibe) (nmul (Fin 0.4) dvibe)))
                       (nmul (Fin 0.35) impact))).
Proof.
  apply vibe_advanced_breakdown in E
    as (o & dv & i & m & s & _ & _ & _ & _ & _ & ->).
  split; [| split].
  - rewrite !dom_insert_L, dom_empty_L. reflexivity.
  - simplify_map_eq. reflexivity.
  - exists o, dv, i. repeat split; simplify_map_eq; reflexivity.
Qed.

Lemma breakdown_shape_witness :
  ∃ r,
    calculate_vibe_advanced line_600 (Some unit_league) = Ok (Breakdown r) ∧
    dom r = list_to_set breakdown_keys ∧
    r !! "VIBE" = None.
Proof.
  assert (Hd : stat_line line_600) by check_fields.
  assert (Hm : stat_value line_600 "MIN" ≠ -600).
  { unfold stat_value, field_or, line_600. simplify_map_eq. lra. }
  destruct (composer_finite line_600 unit_league Hd unit_league_usable
              unit_league_finite Hm) as (r & o & dv & i & E & _).
  exists r. split; [exact E |].
  destruct (breakdown_shape _ _ _ E) as (Hdom & Hv & _).
  split; assumption.
Defined.

(** X5.  For a player with non-negative minutes the shrinkage damps and
    never flips: [VIBE_shrunk] has the sign of [VIBE_raw], is strictly
    smaller in size unless [VIBE_raw] is 0, and is 0 at 0 minutes. *)
Theorem shrinkage_damps (d : gmap string pyval) (ls : league_stats)
    (r : gmap string pyval) (raw m : R)
    (E : calculate_vibe_advanced d (Some ls) = Ok (Breakdown r))
    (Hraw : r !! "VIBE_raw" = Some (PNum (Fin raw)))
    (Hmin : r !! "minutes" = Some (PNum (Fin m)))
    (Hm : 0 <= m) :
  ∃ s,
    r !! "VIBE_shrunk" = Some (PNum (Fin s)) ∧
    Rabs s <= Rabs raw ∧
    0 <= s * raw ∧
    (raw ≠ 0 → Rabs s < Rabs raw) ∧
    (m = 0 → s = 0).
Proof.
  apply vibe_advanced_inv in E as (raw' & min' & s' & Hs & Hr & Hn & _ & Hv).
  rewrite Hraw in Hr. rewrite Hmin in Hn.
  injection Hr as <-. injection Hn as <-.
  rewrite shrink_factor_value in Hs by lra. injection Hs as <-.
  exists (raw * (m / (m + 600))). split; [exact Hv |].
  assert (Hf : 0 <= m / (m + 600) < 1).
  { split.
    - apply Rmult_le_pos; [lra |]. left. apply Rinv_0_lt_compat. lra.
    - apply Rmult_lt_reg_r with (m + 600); [lra |].
      unfold Rdiv. rewrite Rmult_assoc, Rinv_l by lra. lra. }
  set (f := m / (m + 600)) in *.
  rewrite Rabs_mult, (Rabs_right f) by lra.
  pose proof (Rabs_pos raw) as Hp.
  split; [nra | split; [nra | split]].
  - intros Hne. apply Rabs_pos_lt in Hne. nra.
  - intros ->. unfold f, Rdiv. ring.
Qed.

Lemma shrinkage_damps_witness :
  ∃ r raw s,
    calculate_vibe_advanced line_600 (Some unit_league) = Ok (Breakdown r) ∧
    r !! "VIBE_raw" = Some (PNum (Fin raw)) ∧
    r !! "minutes" = Some (PNum (Fin 600)) ∧
    0 <= 600 ∧
    r !! "VIBE_shrunk" = Some (PNum (Fin s)) ∧
    Rabs s <= Rabs raw.
Proof.
  assert (Hd : stat_line line_600) by check_fields.
  assert (Hv : stat_value line_600 "MIN" = 600).
  { unfold stat_value, field_or, line_600. simplify_map_eq. reflexivity. }
  assert (Hm : stat_value line_600 "MIN" ≠ -600) by (rewrite Hv; lra).
  destruct (composer_finite line_600 unit_league Hd unit_league_usable
              unit_league_finite Hm) as (r & o & dv & i & E & _ & _ & _ & Hraw & _ & Hmin).
  rewrite Hv in Hmin.
  assert (H0 : 0 <= 600) by lra.
  destruct (shrinkage_damps _ _ _ _ _ E Hraw Hmin H0) as (s & Hs & Hle & _).
  exists r, (0.65 * (0.6 * o + 0.4 * dv) + 0.35 * i), s.
  repeat split; assumption.
Defined.

(** ** Rounding keeps the order *)

Lemma Int_part_mono y1 y2 : y1 <= y2 → (Int_part y1 <= Int_part y2)%Z.
Proof.
  intros H. destruct (base_Int_part y1) as [H1 _].
  destruct (base_Int_part y2) as [_ H2].
  assert (Hlt : IZR (Int_part y1) < IZR (Int_part y2 + 1))
    by (rewrite plus_IZR; lra).
  apply lt_IZR in Hlt. lia.
Qed.

Lemma rint_bounds y : (Int_part y <= rint y <= Int_part y + 1)%Z.
Proof.
  unfold rint. repeat case_decide; try destruct (Z.even (Int_part y)); lia.
Qed.

Lemma rint_mono y1 y2 : y1 <= y2 → (rint y1 <= rint y2)%Z.
Proof.
  intros H. pose proof (Int_part_mono y1 y2 H) as Hf.
  destruct (Z.eq_dec (Int_part y1) (Int_part y2)) as [Heq | Hne].
  - unfold rint. rewrite Heq.
    repeat case_decide; try destruct (Z.even (Int_part y2)); try lia; lra.
  - pose proof (rint_bounds y1). pose proof (rint_bounds y2). lia.
Qed.

Lemma round1_mono x1 x2 : x1 <= x2 → round1 x1 <= round1 x2.
Proof.
  intros H. unfold round1.
  assert (Hr : (rint (x1 * 10) <= rint (x2 * 10))%Z) by (apply rint_mono; lra).
  apply IZR_le in Hr. lra.
Qed.

(** ** [normalize_vibe_score] *)

Lemma normalize_value v m s :
  0 < s →
  normalize_vibe_score (PNum (Fin v)) (PNum (Fin m)) (PNum (Fin s)) =
    Ok (Fin (round1 (100 + 15 * (v - m) / s))).
Proof.
  intros Hs. unfold normalize_vibe_score.
  cbn [as_num mbind res_bind nle]. rewrite bool_decide_false by lra.
  cbn [nsub nmul]. rewrite ndiv_Fin by lra. reflexivity.
Qed.

Lemma normalize_nonpositive s v m :
  s <= 0 → normalize_vibe_score v m (PNum (Fin s)) = Ok (Fin 100).
Proof.
  intros Hs. unfold normalize_vibe_score.
  cbn [as_num mbind res_bind nle]. rewrite bool_decide_true by assumption.
  reflexivity.
Qed.

(** X6.  With a league deviation that is not positive the display score
    is 100.0 whatever the other two arguments are, [None] included; a
    deviation that is [None] raises [TypeError]. *)
Theorem normalize_guard (s : R) (Hs : s <= 0) :
  (∀ vibe_value league_mean,
     normalize_vibe_score vibe_value league_mean (PNum (Fin s)) = Ok (Fin 100)) ∧
  (∀ vibe_value league_mean,
     normalize_vibe_score vibe_value league_mean PNone = Raise TypeError).
Proof.
  split; intros v m; [apply normalize_nonpositive; assumption | reflexivity].
Qed.

Lemma normalize_guard_witness :
  0 <= 0 ∧ normalize_vibe_score PNone (PStr "x") (PNum (Fin 0)) = Ok (Fin 100).
Proof.
  assert (H : 0 <= 0) by lra.
  split; [exact H |]. apply (normalize_guard 0 H).
Defined.

(** X7.  With a positive league deviation the display score is within
    0.05 of [100 + 15 * (value - mean) / std], and a higher value never
    gets a lower score. *)
Theorem normalize_monotone (v1 v2 m s : R) (Hs : 0 < s) (Hv : v1 <= v2) :
  ∃ n1 n2,
    normalize_vibe_score (PNum (Fin v1)) (PNum (Fin m)) (PNum (Fin s)) = Ok (Fin n1) ∧
    normalize_vibe_score (PNum (Fin v2)) (PNum (Fin m)) (PNum (Fin s)) = Ok (Fin n2) ∧
    n1 <= n2 ∧
    Rabs (n1 - (100 + 15 * (v1 - m) / s)) <= 0.05.
Proof.
  eexists _, _. rewrite !normalize_value by assumption.
  split; [reflexivity | split; [reflexivity | split]].
  - apply round1_mono.
    assert (H : 15 * (v1 - m) / s <= 15 * (v2 - m) / s).
    { unfold Rdiv. apply Rmult_le_compat_r; [| lra].
      left. apply Rinv_0_lt_compat. assumption. }
    lra.
  - apply round1_error.
Qed.

Lemma normalize_monotone_witness :
  0 < 2 ∧ 1 <= 3 ∧
  ∃ n1 n2,
    normalize_vibe_score (PNum (Fin 1)) (PNum (Fin 1)) (PNum (Fin 2)) = Ok (Fin n1) ∧
    normalize_vibe_score (PNum (Fin 3)) (PNum (Fin 1)) (PNum (Fin 2)) = Ok (Fin n2) ∧
    n1 <= n2.
Proof.
  assert (H1 : 0 < 2) by lra. assert (H2 : 1 <= 3) by lra.
  split; [exact H1 | split; [exact H2 |]].
  destruct (normalize_monotone 1 3 1 2 H1 H2) as (n1 & n2 & E1 & E2 & Hle & _).
  exists n1, n2. repeat split; assumption.
Defined.

(** ** The league normalizer, further *)

Lemma final_vibe_normalized xs x :
  x ∈ xs →
  normalize_vibe_score (PNum (Fin x)) (PNum (Fin (Rmean xs))) (PNum (Fin (Rstd xs)))
  = Ok (Fin (final_vibe xs x)).
Proof.
  intros Hx. unfold final_vibe, rescaled, league_std.
  destruct (decide (Rstd xs <= 0)) as [Hz | Hp].
  - rewrite (normalize_nonpositive _ _ _ Hz).
    assert (Hne : xs ≠ []) by (intros ->; apply elem_of_nil in Hx; contradiction).
    assert (H0 : Rstd xs = 0) by (pose proof (Rstd_nonneg xs); lra).
    pose proof (Rstd_zero_constant xs Hne H0) as Hc.
    rewrite Forall_forall in Hc. rewrite (Hc x Hx).
    replace (100 + 15 * (Rmean xs - Rmean xs) / 1) with 100 by (unfold Rdiv; ring).
    rewrite round1_100. reflexivity.
  - apply normalize_value. lra.
Qed.

Lemma annotated_lookup xs results ys i r' x :
  shrunk_values results ys →
  zip_with (annotate xs) results ys !! i = Some r' → ys !! i = Some x →
  ∃ r, results !! i = Some r ∧ r' = annotate xs r x.
Proof.
  intros _ Hr Hx. rewrite lookup_zip_with in Hr.
  destruct (results !! i) as [r |]; [| discriminate]. cbn in Hr.
  rewrite Hx in Hr. cbn in Hr. injection Hr as <-. eauto.
Qed.

(** X8.  The score the league normalizer gives a result is the one
    [normalize_vibe_score] computes from its [VIBE_shrunk] with the mean
    and the standard deviation of the list, also when that deviation
    is 0. *)
Theorem final_scores_are_normalized (results : list (gmap string pyval))
    (xs : list R) (H : shrunk_values results xs) :
  ∃ out,
    calculate_final_vibe_scores results = Ok out ∧
    ∀ i r' x,
      out !! i = Some r' → xs !! i = Some x →
      ∃ v, r' !! "VIBE" = Some (PNum v) ∧
           normalize_vibe_score (PNum (Fin x)) (PNum (Fin (Rmean xs)))
                                (PNum (Fin (Rstd xs))) = Ok v.
Proof.
  exists (zip_with (annotate xs) results xs).
  split; [apply normalizer_value; assumption |].
  intros i r' x Hr Hx.
  destruct (annotated_lookup xs results xs i r' x H Hr Hx) as (r & _ & ->).
  exists (Fin (final_vibe xs x)). split.
  - unfold annotate. apply lookup_insert_eq.
  - apply final_vibe_normalized. eapply list_elem_of_lookup_2. exact Hx.
Qed.

Lemma final_scores_are_normalized_witness :
  shrunk_values [result_0] [0] ∧
  ∃ out r',
    calculate_final_vibe_scores [result_0] = Ok out ∧
    out !! 0%nat = Some r' ∧
    ∃ v, r' !! "VIBE" = Some (PNum v) ∧
         normalize_vibe_score (PNum (Fin 0)) (PNum (Fin (Rmean [0])))
                              (PNum (Fin (Rstd [0]))) = Ok v.
Proof.
  assert (H : shrunk_values [result_0] [0]) by repeat constructor.
  split; [exact H |].
  destruct (final_scores_are_normalized _ _ H) as (out & E & Hout).
  pose proof E as E'. rewrite (normalizer_value _ _ H) in E'. injection E' as <-.
  eexists _, _. split; [exact E | split; [reflexivity |]].
  apply (Hout 0%nat); reflexivity.
Defined.

Lemma rescaled_mono xs x y : x <= y → rescaled xs x <= rescaled xs y.
Proof.
  intros H. unfold rescaled. pose proof (league_std_pos xs) as Hp.
  assert (15 * (x - Rmean xs) / league_std xs <= 15 * (y - Rmean xs) / league_std xs).
  { unfold Rdiv. apply Rmult_le_compat_r; [| lra].
    left. apply Rinv_0_lt_compat. assumption. }
  lra.
Qed.

(** X9.  The league normalizer keeps the ranking: of two results, the
    one with the larger [VIBE_shrunk] never gets the smaller [VIBE]. *)
Theorem normalizer_keeps_order (results : list (gmap string pyval))
    (xs : list R) (H : shrunk_values results xs) :
  ∃ out,
    calculate_final_vibe_scores results = Ok out ∧
    ∀ i j ri rj x y,
      out !! i = Some ri → out !! j = Some rj →
      xs !! i = Some x → xs !! j = Some y → x <= y →
      ∃ vi vj, ri !! "VIBE" = Some (PNum (Fin vi)) ∧
               rj !! "VIBE" = Some (PNum (Fin vj)) ∧
               vi <= vj.
Proof.
  exists (zip_with (annotate xs) results xs).
  split; [apply normalizer_value; assumption |].
  intros i j ri rj x y Hi Hj Hx Hy Hle.
  destruct (annotated_lookup xs results xs i ri x H Hi Hx) as (r1 & _ & ->).
  destruct (annotated_lookup xs results xs j rj y H Hj Hy) as (r2 & _ & ->).
  exists (final_vibe xs x), (final_vibe xs y).
  split; [apply lookup_insert_eq | split; [apply lookup_insert_eq |]].
  unfold final_vibe. apply round1_mono, rescaled_mono. assumption.
Qed.

Lemma normalizer_keeps_order_witness :
  shrunk_values [result_m1; result_1] [-1; 1] ∧
  ∃ out,
    calculate_final_vibe_scores [result_m1; result_1] = Ok out ∧
    ∃ ri rj vi vj,
      out !! 0%nat = Some ri ∧ out !! 1%nat = Some rj ∧
      ri !! "VIBE" = Some (PNum (Fin vi)) ∧
      rj !! "VIBE" = Some (PNum (Fin vj)) ∧ vi <= vj.
Proof.
  assert (H : shrunk_values [result_m1; result_1] [-1; 1]) by repeat constructor.
  split; [exact H |].
  destruct (normalizer_keeps_order _ _ H) as (out & E & Hout).
  pose proof E as E'. rewrite (normalizer_value _ _ H) in E'. injection E' as <-.
  eexists. split; [exact E |].
  assert (Hle : -1 <= 1) by lra.
  destruct (Hout 0%nat 1%nat _ _ (-1) 1 eq_refl eq_refl eq_refl eq_refl Hle)
    as (vi & vj & Hi & Hj & Hv).
  exists (annotate [-1; 1] result_m1 (-1)), (annotate [-1; 1] result_1 1), vi, vj.
  split; [reflexivity | split; [reflexivity |]].
  split; [exact Hi | split; [exact Hj | exact Hv]].
Defined.

Lemma annotated_shrunk_values xs results ys :
  shrunk_values results ys →
  shrunk_values (zip_with (annotate xs) results ys) ys.
Proof.
  induction 1 as [| r y results ys Hr _ IH]; [constructor |].
  cbn [zip_with]. constructor; [| exact IH].
  unfold annotate. rewrite lookup_insert_ne by discriminate. exact Hr.
Qed.

Lemma annotate_twice xs results ys :
  shrunk_values results ys →
  zip_with (annotate xs) (zip_with (annotate xs) results ys) ys =
  zip_with (annotate xs) results ys.
Proof.
  induction 1 as [| r y results ys _ _ IH]; [reflexivity |].
  cbn [zip_with]. rewrite IH. f_equal.
  unfold annotate. apply insert_insert_eq.
Qed.

(** X10.  Running the league normalizer on its own output changes
    nothing. *)
Theorem normalizer_idempotent (results : list (gmap string pyval))
    (xs : list R) (H : shrunk_values results xs) :
  ∃ out,
    calculate_final_vibe_scores results = Ok out ∧
    calculate_final_vibe_scores out = Ok out.
Proof.
  exists (zip_with (annotate xs) results xs).
  split; [apply normalizer_value; assumption |].
  rewrite (normalizer_value _ xs) by (apply annotated_shrunk_values; assumption).
  rewrite annotate_twice by assumption. reflexivity.
Qed.

Lemma normalizer_idempotent_witness :
  shrunk_values [result_1; result_m1] [1; -1] ∧
  ∃ out,
    calculate_final_vibe_scores [result_1; result_m1] = Ok out ∧
    calculate_final_vibe_scores out = Ok out.
Proof.
  assert (H : shrunk_values [result_1; result_m1] [1; -1]) by repeat constructor.
  split; [exact H |]. exact (normalizer_idempotent _ _ H).
Defined.

(** ** The builder, further *)

Lemma filter_none_meet min_minutes pop :
  Forall (fun d => stat_value d "MIN" < min_minutes) pop →
  filter (meets_minutes min_minutes) pop = [].
Proof.
  induction 1 as [| d pop Hd _ IH]; [reflexivity |].
  rewrite filter_cons, decide_False; [exact IH |].
  unfold meets_minutes. lra.
Qed.

Lemma filter_all_meet min_minutes pop :
  Forall (fun d => min_minutes <= stat_value d "MIN") pop →
  filter (meets_minutes min_minutes) pop = pop.
Proof.
  induction 1 as [| d pop Hd _ IH]; [reflexivity |].
  rewrite filter_cons, decide_True by exact Hd. rewrite IH. reflexivity.
Qed.

(** X11.  A threshold that nobody meets gives the league statistics of
    a threshold that everybody meets, and leaves every record of the
    caller as it was. *)
Theorem fallback_uses_everyone (pop : list (gmap string pyval)) (lo hi : R)
    (Hpop : Forall stat_line pop)
    (Hnone : Forall (fun d => stat_value d "MIN" < hi) pop)
    (Hall : Forall (fun d => lo <= stat_value d "MIN") pop) :
  ∃ ls pop',
    calculate_position_based_z_scores pop hi = Ok (pop, ls) ∧
    calculate_position_based_z_scores pop lo = Ok (pop', ls).
Proof.
  eexists _, _. rewrite !builder_value by assumption.
  rewrite population_after_unqualified by (apply filter_none_meet; assumption).
  assert (E : qualified_population hi pop = qualified_population lo pop).
  { unfold qualified_population.
    rewrite filter_none_meet, filter_all_meet by assumption.
    destruct pop; reflexivity. }
  rewrite E. split; reflexivity.
Qed.

Lemma fallback_uses_everyone_witness :
  Forall stat_line [line_300] ∧
  Forall (fun d => stat_value d "MIN" < 400) [line_300] ∧
  Forall (fun d => 200 <= stat_value d "MIN") [line_300] ∧
  ∃ ls pop',
    calculate_position_based_z_scores [line_300] 400 = Ok ([line_300], ls) ∧
    calculate_position_based_z_scores [line_300] 200 = Ok (pop', ls).
Proof.
  assert (Hv : stat_value line_300 "MIN" = 300)
    by (unfold stat_value, field_or, line_300; simplify_map_eq; reflexivity).
  assert (H1 : Forall stat_line [line_300])
    by (constructor; [exact line_300_stat_line | constructor]).
  assert (H2 : Forall (fun d => stat_value d "MIN" < 400) [line_300])
    by (constructor; [rewrite Hv; lra | constructor]).
  assert (H3 : Forall (fun d => 200 <= stat_value d "MIN") [line_300])
    by (constructor; [rewrite Hv; lra | constructor]).
  split; [exact H1 | split; [exact H2 | split; [exact H3 |]]].
  exact (fallback_uses_everyone [line_300] 200 400 H1 H2 H3).
Defined.

(** X12.  On a population of stat lines the builder keeps the length and
    the order of the caller's list and writes one key only: a record
    that meets the threshold gets ['POSITION_GROUP'] set to the name of
    its group, a record that does not is left as it was. *)
Theorem builder_writes_only_labels (pop : list (gmap string pyval))
    (min_minutes : R) (Hpop : Forall stat_line pop) :
  ∃ pop' ls,
    calculate_position_based_z_scores pop min_minutes = Ok (pop', ls) ∧
    length pop' = length pop ∧
    ∀ i d, pop !! i = Some d →
      ∃ d' g,
        pop' !! i = Some d' ∧
        assign_position_group d = Ok g ∧
        (∀ k, k ≠ "POSITION_GROUP"%string → d' !! k = d !! k) ∧
        (min_minutes <= stat_value d "MIN" →
         d' !! "POSITION_GROUP" = Some (PStr (pos_name g))) ∧
        (stat_value d "MIN" < min_minutes → d' = d).
Proof.
  eexists _, _. split; [apply builder_value; assumption |].
  split; [unfold population_after; apply length_map |].
  intros i d Hd.
  assert (Hsl : stat_line d).
  { rewrite Forall_forall in Hpop. apply Hpop. eapply list_elem_of_lookup_2, Hd. }
  exists (if decide (meets_minutes min_minutes d) then labelled d else d), (group_of d).
  split; [| split; [| split; [| split]]].
  - unfold population_after. change (map ?f ?l) with (f <$> l).
    rewrite list_lookup_fmap, Hd. reflexivity.
  - apply position_group_value, stat_line_position. assumption.
  - intros k Hk. case_decide; [apply labelled_lookup; assumption | reflexivity].
  - intros Hm. rewrite decide_True by exact Hm.
    unfold labelled, set_position_group. apply lookup_insert_eq.
  - intros Hm. rewrite decide_False; [reflexivity |]. unfold meets_minutes. lra.
Qed.

Lemma builder_writes_only_labels_witness :
  Forall stat_line [line_300] ∧
  ∃ pop' ls,
    calculate_position_based_z_scores [line_300] 200 = Ok (pop', ls) ∧
    length pop' = 1%nat.
Proof.
  assert (H : Forall stat_line [line_300])
    by (constructor; [exact line_300_stat_line | constructor]).
  split; [exact H |].
  destruct (builder_writes_only_labels [line_300] 200 H) as (pop' & ls & E & Hlen & _).
  exists pop', ls. split; assumption.
Defined.

Lemma labelled_group d : group_of (labelled d) = group_of d.
Proof. unfold group_of. rewrite !labelled_field_or by discriminate. reflexivity. Qed.

Lemma labelled_twice d : labelled (labelled d) = labelled d.
Proof.
  unfold labelled at 1. rewrite labelled_group.
  unfold labelled, set_position_group. apply insert_insert_eq.
Qed.

Lemma labelled_meets min_minutes d :
  meets_minutes min_minutes (labelled d) ↔ meets_minutes min_minutes d.
Proof. unfold meets_minutes. rewrite labelled_stat_value by discriminate. reflexivity. Qed.

Lemma map_labelled_same {B : Type} (f : gmap string pyval → B) q :
  (∀ d, f (labelled d) = f d) → map f (map labelled q) = map f q.
Proof. intros H. rewrite map_map. apply map_ext. exact H. Qed.

Lemma league_of_labelled q : league_of (map labelled q) = league_of q.
Proof.
  unfold league_of.
  rewrite (map_labelled_same group_of) by apply labelled_group.
  rewrite (map_labelled_same def_rates_of) by apply labelled_def_rates.
  rewrite (map_labelled_same rates_of) by apply labelled_rates.
  rewrite (map_labelled_same shooting_of) by apply labelled_shooting.
  reflexivity.
Qed.

Lemma population_after_stat_lines min_minutes pop :
  Forall stat_line pop → Forall stat_line (population_after min_minutes pop).
Proof.
  intros H. unfold population_after.
  induction H as [| d pop Hd _ IH]; cbn [map]; constructor; [| exact IH].
  case_decide; [apply labelled_stat_line |]; assumption.
Qed.

Lemma population_after_twice min_minutes pop :
  population_after min_minutes (population_after min_minutes pop) =
  population_after min_minutes pop.
Proof.
  unfold population_after. rewrite map_map. apply map_ext. intros d.
  destruct (decide (meets_minutes min_minutes d)) as [Hm | Hm].
  - rewrite decide_True by (apply labelled_meets; exact Hm). apply labelled_twice.
  - rewrite decide_False by exact Hm. reflexivity.
Qed.

Lemma filter_population_after min_minutes pop :
  filter (meets_minutes min_minutes) (population_after min_minutes pop) =
  map labelled (filter (meets_minutes min_minutes) pop).
Proof.
  unfold population_after. induction pop as [| d pop IH]; [reflexivity |].
  cbn [map]. rewrite !filter_cons.
  destruct (decide (meets_minutes min_minutes d)) as [Hm | Hm].
  - rewrite decide_True by (apply labelled_meets; exact Hm).
    cbn [map]. rewrite IH. reflexivity.
  - rewrite decide_False by exact Hm. exact IH.
Qed.

(** X13.  Running the builder again on the population it left behind
    gives the same league statistics and writes nothing new: the labels
    it leaves in the records do not feed back into the statistics. *)
Theorem builder_rerun (pop : list (gmap string pyval)) (min_minutes : R)
    (Hpop : Forall stat_line pop) :
  ∃ pop' ls,
    calculate_position_based_z_scores pop min_minutes = Ok (pop', ls) ∧
    calculate_position_based_z_scores pop' min_minutes = Ok (pop', ls).
Proof.
  eexists _, _. split; [apply builder_value; assumption |].
  rewrite builder_value by (apply population_after_stat_lines; assumption).
  rewrite population_after_twice. do 2 f_equal.
  unfold qualified_population at 1. rewrite filter_population_after.
  unfold qualified_population.
  destruct (filter (meets_minutes min_minutes) pop) as [| d q] eqn:E.
  - cbn [map]. rewrite population_after_unqualified by exact E. reflexivity.
  - change (labelled d :: map labelled q) with (map labelled (d :: q)).
    cbn [map]. apply (league_of_labelled (d :: q)).
Qed.

Lemma builder_rerun_witness :
  Forall stat_line three_wings ∧
  ∃ pop' ls,
    calculate_position_based_z_scores three_wings 200 = Ok (pop', ls) ∧
    calculate_position_based_z_scores pop' 200 = Ok (pop', ls).
Proof.
  assert (H : Forall stat_line three_wings) by (repeat constructor; check_fields).
  split; [exact H |]. exact (builder_rerun three_wings 200 H).
Defined.

(** ** The caller's stat dictionary *)

Ltac case_key Hk :=
  unfold stats_keys in Hk;
  repeat (apply elem_of_cons in Hk as [-> | Hk]);
  [.. | apply elem_of_nil in Hk; contradiction].

Lemma stats_dict_lookup row k :
  k ∈ stats_keys → stats_dict row !! k = Some (py_get row k (PNum (Fin 0))).
Proof.
  intros Hk. case_key Hk; unfold stats_dict; simplify_map_eq; reflexivity.
Qed.

Lemma stats_dict_no_games row : stats_dict row !! "GP" = None.
Proof. unfold stats_dict. simplify_map_eq. reflexivity. Qed.


Lemma stats_dict_finite row k :
  k ∈ stats_keys → finite_field row k → finite_field (stats_dict row) k.
Proof.
  intros Hk. unfold finite_field. rewrite stats_dict_lookup by assumption.
  unfold py_get. destruct (row !! k) as [[| [r |] | s] |]; cbn; tauto.
Qed.

Lemma stats_dict_value row k :
  k ∈ stats_keys → numeric_field row k →
  stat_value (stats_dict row) k = stat_value row k.
Proof.
  intros Hk. unfold numeric_field, stat_value, field_or.
  rewrite stats_dict_lookup by assumption.
  unfold py_get. destruct (row !! k) as [[| [r |] | s] |]; cbn; tauto || reflexivity.
Qed.

Ltac in_keys :=
  unfold stats_keys;
  solve [repeat first [apply list_elem_of_here | apply list_elem_of_further]].


Lemma stats_dict_field row k :
  k ∈ stats_keys → finite_field row k →
  field_or (stats_dict row) k 0 = field_or row k 0.
Proof.
  intros Hk Hf. apply (stats_dict_value row k Hk).
  unfold finite_field, numeric_field in *.
  destruct (row !! k) as [[| [r |] | s] |]; tauto.
Qed.

(** X14.  The dictionary the caller passes to the composer has no games
    played, so the composer classifies on season totals: seven rebounds
    in the season make a BIG.  A player whose total reaches 7 while the
    per-game average does not is BIG for the composer and not for the
    builder. *)
Theorem composer_classifies_on_totals (row : gmap string pyval)
    (Hrow : Forall (finite_field row) position_fields) :
  let rebounds := field_or row "OREB" 0 + field_or row "DREB" 0 in
  let assists := field_or row "AST" 0 in
  assign_position_group (stats_dict row) = Ok (classify rebounds assists) ∧
  (7 <= rebounds → rebounds / Rmax (field_or row "GP" 1) 1 < 7 →
   assign_position_group (stats_dict row) = Ok BIG ∧
   assign_position_group row ≠ Ok BIG).
Proof.
  intros rebounds assists.
  assert (Hsd : Forall (finite_field (stats_dict row)) position_fields).
  { unfold position_fields in *. split_fields.
    repeat (apply Forall_cons_2 || apply Forall_nil_2);
      try (apply stats_dict_finite; [in_keys | assumption]).
    unfold finite_field. rewrite stats_dict_no_games. exact I. }
  assert (E : assign_position_group (stats_dict row) = Ok (classify rebounds assists)).
  { rewrite position_group_finite by exact Hsd.
    unfold position_fields in Hrow. split_fields.
    rewrite !stats_dict_field by (in_keys || assumption).
    assert (Eg : field_or (stats_dict row) "GP" 1 = 1)
      by (unfold field_or; rewrite stats_dict_no_games; reflexivity).
    rewrite Eg, Rmax_left by lra. unfold rebounds, assists.
    do 2 f_equal; field. }
  split; [exact E |].
  intros Htot Hper. split.
  - rewrite E. unfold classify. rewrite decide_True by exact Htot. reflexivity.
  - rewrite position_group_finite by exact Hrow.
    unfold classify. fold rebounds. rewrite decide_False by lra.
    case_decide; discriminate.
Qed.

Lemma composer_classifies_on_totals_witness :
  Forall (finite_field line_season) position_fields ∧
  assign_position_group (stats_dict line_season) = Ok BIG ∧
  assign_position_group line_season ≠ Ok BIG.
Proof.
  assert (H : Forall (finite_field line_season) position_fields) by check_fields.
  split; [exact H |].
  destruct (composer_classifies_on_totals line_season H) as [_ E].
  apply E; unfold field_or, line_season; simplify_map_eq.
  - lra.
  - rewrite Rmax_left by lra. lra.
Defined.

(** ** The scoring run of the caller *)






(** ** [calculate_vibe_basic] *)

Lemma round2_error x : Rabs (round2 x - x) <= 0.005.
Proof.
  unfold round2. pose proof (rint_error (x * 100)) as H.
  apply Rabs_le_bounds in H. apply Rabs_le. lra.
Qed.

(** X16.  The legacy score is symmetric in its two arguments on every
    input, is 0.0 as soon as one of them is [None], and on two numbers is
    within 0.005 of their sum. *)
Theorem vibe_basic_symmetric (points assists : pyval) :
  calculate_vibe_basic points assists = calculate_vibe_basic assists points ∧
  calculate_vibe_basic PNone assists = Ok (Fin 0) ∧
  calculate_vibe_basic points PNone = Ok (Fin 0) ∧
  ∀ p a, ∃ n,
    calculate_vibe_basic (PNum (Fin p)) (PNum (Fin a)) = Ok (Fin n) ∧
    Rabs (n - (p + a)) <= 0.005.
Proof.
  split; [| split; [| split]].
  - destruct points as [| [p |] | s], assists as [| [a |] | t];
      try reflexivity.
    cbn. rewrite Rplus_comm. reflexivity.
  - reflexivity.
  - destruct points; reflexivity.
  - intros p a. eexists. split; [reflexivity |]. apply round2_error.
Qed.

(** ** A league of identical players *)













(** ** Who counts for the league statistics *)

Lemma qualified_population_app min_minutes pop d :
  filter (meets_minutes min_minutes) pop ≠ [] →
  ¬ meets_minutes min_minutes d →
  qualified_population min_minutes (pop ++ [d]) =
  qualified_population min_minutes pop.
Proof.
  intros Hq Hd. unfold qualified_population.
  rewrite filter_app, filter_cons, decide_False by exact Hd.
  rewrite filter_nil, app_nil_r.
  destruct (filter (meets_minutes min_minutes) pop); [contradiction | reflexivity].
Qed.

(** X18.  As long as somebody qualifies, a player below the minutes
    threshold has no influence on the league statistics: adding such a
    stat line to the population leaves them as they were. *)
Theorem unqualified_player_ignored (pop : list (gmap string pyval))
    (d : gmap string pyval) (min_minutes : R)
    (Hpop : Forall stat_line pop) (Hd : stat_line d)
    (Hlow : stat_value d "MIN" < min_minutes)
    (Hsome : Exists (fun p => min_minutes <= stat_value p "MIN") pop) :
  ∃ pop1 pop2 ls,
    calculate_position_based_z_scores pop min_minutes = Ok (pop1, ls) ∧
    calculate_position_based_z_scores (pop ++ [d]) min_minutes = Ok (pop2, ls).
Proof.
  assert (Hq : filter (meets_minutes min_minutes) pop ≠ []).
  { apply Exists_exists in Hsome as (p & Hp & Hm).
    intros E. eapply (filter_nil_not_elem_of _ _ p E); eassumption. }
  assert (Hnd : ¬ meets_minutes min_minutes d) by (unfold meets_minutes; lra).
  eexists _, _, _. rewrite !builder_value;
    [| apply Forall_app; split; [assumption | constructor; [assumption | constructor]]
     | assumption].
  rewrite qualified_population_app by assumption. split; reflexivity.
Qed.

Lemma unqualified_player_ignored_witness :
  Forall stat_line [line_300] ∧ stat_line line_0_10 ∧
  stat_value line_0_10 "MIN" < 200 ∧
  Exists (fun p => 200 <= stat_value p "MIN") [line_300] ∧
  ∃ pop1 pop2 ls,
    calculate_position_based_z_scores [line_300] 200 = Ok (pop1, ls) ∧
    calculate_position_based_z_scores ([line_300] ++ [line_0_10]) 200 = Ok (pop2, ls).
Proof.
  assert (H1 : Forall stat_line [line_300])
    by (constructor; [exact line_300_stat_line | constructor]).
  assert (H2 : stat_line line_0_10) by check_fields.
  assert (H3 : stat_value line_0_10 "MIN" < 200).
  { unfold stat_value, field_or, line_0_10. simplify_map_eq. lra. }
  assert (H4 : Exists (fun p => 200 <= stat_value p "MIN") [line_300]).
  { constructor. unfold stat_value, field_or, line_300. simplify_map_eq. lra. }
  split; [exact H1 | split; [exact H2 | split; [exact H3 | split; [exact H4 |]]]].
  exact (unqualified_player_ignored [line_300] line_0_10 200 H1 H2 H3 H4).
Defined.

Lemma group_sizes (q : list (gmap string pyval)) :
  (length (filter (fun d => group_of d = GUARD) q)
   + length (filter (fun d => group_of d = WING) q)
   + length (filter (fun d => group_of d = BIG) q) = length q)%nat.
Proof.
  induction q as [| d q IH]; [reflexivity |].
  rewrite !filter_cons.
  destruct (group_of d); repeat case_decide; try congruence;
    cbn [length]; lia.
Qed.

(** X19.  Every qualified player lands in exactly one of the three
    groups, so with seven qualified players or more at least one group
    gets a defensive distribution, and with fewer than three none
    does. *)
Theorem position_groups_partition (pop : list (gmap string pyval))
    (min_minutes : R) (Hpop : Forall stat_line pop) :
  let q := qualified_population min_minutes pop in
  (length (group_population min_minutes pop GUARD)
   + length (group_population min_minutes pop WING)
   + length (group_population min_minutes pop BIG) = length q)%nat ∧
  ∃ pop' ls,
    calculate_position_based_z_scores pop min_minutes = Ok (pop', ls) ∧
    ((7 <= length q)%nat → ∃ g, is_Some (position_stats ls !! pos_name g)) ∧
    ((length q < 3)%nat → ∀ g, position_stats ls !! pos_name g = None).
Proof.
  intros q. pose proof (group_sizes q) as Hsum.
  split; [exact Hsum |].
  eexists _, _. split; [apply builder_value; assumption |]. fold q.
  split.
  - intros Hlen.
    assert (Hg : ∃ g, (3 <= length (filter (fun d => group_of d = g) q))%nat).
    { destruct (le_lt_dec 3 (length (filter (fun d => group_of d = GUARD) q)));
        [exists GUARD; assumption |].
      destruct (le_lt_dec 3 (length (filter (fun d => group_of d = WING) q)));
        [exists WING; assumption |].
      exists BIG. lia. }
    destruct Hg as [g Hg]. exists g.
    rewrite league_of_position_stats, decide_False by lia. eexists; reflexivity.
  - intros Hlen g. rewrite league_of_position_stats.
    rewrite decide_True; [reflexivity |].
    eapply Nat.le_lt_trans; [apply length_filter | exact Hlen].
Qed.

Lemma position_groups_partition_witness :
  Forall stat_line three_wings ∧
  ∃ pop' ls,
    calculate_position_based_z_scores three_wings 200 = Ok (pop', ls) ∧
    (length (group_population 200 three_wings GUARD)
     + length (group_population 200 three_wings WING)
     + length (group_population 200 three_wings BIG)
     = length (qualified_population 200 three_wings))%nat.
Proof.
  assert (H : Forall stat_line three_wings) by (repeat constructor; check_fields).
  split; [exact H |].
  destruct (position_groups_partition three_wings 200 H) as (Hsum & pop' & ls & E & _).
  exists pop', ls. split; [exact E | exact Hsum].
Defined.

(** ** How far a final score can be from 100 *)

Lemma Rsum_map_elem {A : Type} (f : A → R) (l : list A) (x : A) :
  (∀ a, 0 <= f a) → x ∈ l → f x <= Rsum (map f l).
Proof.
  intros Hf Hx. induction Hx as [x l | x y l _ IH].
  - unfold Rsum. cbn. pose proof (Rsum_map_nonneg f l Hf) as H. unfold Rsum in H. lra.
  - unfold Rsum in *. cbn. pose proof (Hf y). lra.
Qed.

Lemma deviation_bound xs x :
  x ∈ xs → Rabs (x - Rmean xs) <= sqrt (INR (length xs)) * Rstd xs.
Proof.
  intros Hx.
  assert (Hne : xs ≠ []) by (intros ->; apply elem_of_nil in Hx; contradiction).
  pose proof (INR_length_pos xs Hne) as Hn.
  pose proof (Rvar_map_nonneg (fun a : R => a) xs Hne) as Hv.
  pose proof (Rvar_map (fun a : R => a) xs) as Ev.
  rewrite map_id in Hv, Ev.
  assert (Hs : (x - Rmean xs) * (x - Rmean xs) <= INR (length xs) * Rvar xs).
  { rewrite Ev. unfold Rdiv.
    rewrite <- Rmult_assoc, (Rmult_comm (INR _)), Rmult_assoc, Rinv_r, Rmult_1_r by lra.
    apply (Rsum_map_elem (fun a => (a - Rmean xs) * (a - Rmean xs)) xs x);
      [intros a; apply Rle_0_sqr | exact Hx]. }
  unfold Rstd. rewrite <- sqrt_mult by lra.
  rewrite <- sqrt_Rsqr_abs. apply sqrt_le_1_alt. unfold Rsqr. exact Hs.
Qed.

Lemma rescaled_bound xs x :
  x ∈ xs → Rabs (rescaled xs x - 100) <= 15 * sqrt (INR (length xs)).
Proof.
  intros Hx. pose proof (deviation_bound xs x Hx) as Hd.
  pose proof (sqrt_pos (INR (length xs))) as Hn.
  pose proof (Rstd_nonneg xs) as Hs.
  unfold rescaled, league_std.
  replace (100 + 15 * (x - Rmean xs) / (if decide (Rstd xs <= 0) then 1 else Rstd xs) - 100)
    with (15 * (x - Rmean xs) / (if decide (Rstd xs <= 0) then 1 else Rstd xs))
    by ring.
  destruct (decide (Rstd xs <= 0)) as [Hz | Hp].
  - assert (E : Rabs (x - Rmean xs) <= 0) by nra.
    pose proof (Rabs_pos (x - Rmean xs)).
    assert (E0 : x - Rmean xs = 0).
    { destruct (Req_dec (x - Rmean xs) 0) as [? | Hne]; [assumption |].
      apply Rabs_pos_lt in Hne. lra. }
    rewrite E0. unfold Rdiv. rewrite Rmult_0_r, Rmult_0_l, Rabs_R0. lra.
  - assert (Hpos : 0 < Rstd xs) by lra.
    unfold Rdiv. rewrite !Rabs_mult, Rabs_inv.
    rewrite (Rabs_right 15), (Rabs_right (Rstd xs)) by lra.
    apply Rmult_le_reg_r with (Rstd xs); [assumption |].
    rewrite !Rmult_assoc, Rinv_l, Rmult_1_r by lra. lra.
Qed.

(** X20.  In a list of [n] results no final score is further from 100
    than [15 * sqrt n + 0.05]. *)
Theorem final_score_bound (results : list (gmap string pyval))
    (xs : list R) (H : shrunk_values results xs) :
  ∃ out,
    calculate_final_vibe_scores results = Ok out ∧
    ∀ i r', out !! i = Some r' →
      ∃ v, r' !! "VIBE" = Some (PNum (Fin v)) ∧
           Rabs (v - 100) <= 15 * sqrt (INR (length results)) + 0.05.
Proof.
  exists (zip_with (annotate xs) results xs).
  split; [apply normalizer_value; assumption |].
  intros i r' Hr. rewrite lookup_zip_with in Hr.
  destruct (results !! i) as [r |]; [| discriminate]. cbn in Hr.
  destruct (xs !! i) as [x |] eqn:Hx; [| discriminate]. cbn in Hr.
  injection Hr as <-. exists (final_vibe xs x).
  split; [apply lookup_insert_eq |].
  assert (Hin : x ∈ xs) by (eapply list_elem_of_lookup_2; exact Hx).
  rewrite (Forall2_length _ _ _ H).
  pose proof (rescaled_bound xs x Hin) as Hb.
  pose proof (round1_error (rescaled xs x)) as He.
  unfold final_vibe.
  apply Rabs_le_bounds in Hb. apply Rabs_le_bounds in He. apply Rabs_le. lra.
Qed.

Lemma final_score_bound_witness :
  shrunk_values [result_1; result_m1] [1; -1] ∧
  ∃ out r' v,
    calculate_final_vibe_scores [result_1; result_m1] = Ok out ∧
    out !! 0%nat = Some r' ∧
    r' !! "VIBE" = Some (PNum (Fin v)) ∧
    Rabs (v - 100) <= 15 * sqrt (INR 2) + 0.05.
Proof.
  assert (H : shrunk_values [result_1; result_m1] [1; -1]) by repeat constructor.
  split; [exact H |].
  destruct (final_score_bound _ _ H) as (out & E & Hout).
  pose proof E as E'. rewrite (normalizer_value _ _ H) in E'. injection E' as <-.
  destruct (Hout 0%nat _ eq_refl) as (v & Hv & Hb).
  eexists _, _, v. split; [exact E | split; [reflexivity | split; [exact Hv | exact Hb]]].
Defined.

(** ** What makes the normalizer raise *)

Lemma shrunk_scores_missing results :
  Exists (fun r => r !! "VIBE_shrunk" = None) results →
  res_mapM vibe_shrunk_of results = Raise KeyError.
Proof.
  induction results as [| r results IH]; intros H.
  - apply Exists_nil in H. contradiction.
  - cbn [res_mapM].
    destruct (r !! "VIBE_shrunk") as [v |] eqn:E.
    + assert (Er : vibe_shrunk_of r = Ok v)
        by (unfold vibe_shrunk_of; rewrite E; reflexivity).
      rewrite Er. cbn [mbind res_bind].
      apply Exists_cons in H as [H | H]; [congruence |].
      rewrite (IH H). reflexivity.
    + assert (Er : vibe_shrunk_of r = Raise KeyError)
        by (unfold vibe_shrunk_of; rewrite E; reflexivity).
      rewrite Er. reflexivity.
Qed.

Lemma shrunk_scores_present results :
  Forall (fun r => is_Some (r !! "VIBE_shrunk")) results →
  ∃ vs, res_mapM vibe_shrunk_of results = Ok vs ∧
        Forall2 (fun r v => r !! "VIBE_shrunk" = Some v) results vs.
Proof.
  induction 1 as [| r results [v Hv] _ (vs & E & Hvs)].
  - exists []. split; [reflexivity | constructor].
  - exists (v :: vs). cbn [res_mapM].
    assert (Er : vibe_shrunk_of r = Ok v)
      by (unfold vibe_shrunk_of; rewrite Hv; reflexivity).
    rewrite Er. cbn [mbind res_bind]. rewrite E. split; [reflexivity |].
    constructor; assumption.
Qed.

Lemma as_num_all_raises vs :
  Exists (fun v => ∀ x, v ≠ PNum x) vs → res_mapM as_num vs = Raise TypeError.
Proof.
  induction vs as [| v vs IH]; intros H.
  - apply Exists_nil in H. contradiction.
  - cbn [res_mapM]. destruct v as [| x | s]; try reflexivity.
    cbn [as_num mbind res_bind].
    apply Exists_cons in H as [H | H]; [exfalso; apply (H x); reflexivity |].
    rewrite (IH H). reflexivity.
Qed.

(** X21.  A result without ['VIBE_shrunk'] makes the normalizer raise
    [KeyError], wherever it stands in the list; and, all keys being
    there, a value that is no number ([None], a string) makes it raise
    [TypeError]. *)
Theorem normalizer_raises (results : list (gmap string pyval)) :
  (Exists (fun r => r !! "VIBE_shrunk" = None) results →
   calculate_final_vibe_scores results = Raise KeyError) ∧
  (Forall (fun r => is_Some (r !! "VIBE_shrunk")) results →
   Exists (fun r => ∃ v, r !! "VIBE_shrunk" = Some v ∧ ∀ x, v ≠ PNum x) results →
   calculate_final_vibe_scores results = Raise TypeError).
Proof.
  split.
  - intros H. unfold calculate_final_vibe_scores.
    rewrite shrunk_scores_missing by assumption. reflexivity.
  - intros Hall Hbad. unfold calculate_final_vibe_scores.
    destruct (shrunk_scores_present results Hall) as (vs & E & Hvs).
    rewrite E. cbn [mbind res_bind].
    assert (Hex : Exists (fun v => ∀ x, v ≠ PNum x) vs).
    { clear E Hall. induction Hvs as [| r v results vs Hr _ IH].
      - apply Exists_nil in Hbad. contradiction.
      - apply Exists_cons in Hbad as [(v' & Hv' & Hn) | Hbad].
        + left. rewrite Hr in Hv'. injection Hv' as <-. exact Hn.
        + right. apply IH. exact Hbad. }
    rewrite decide_False.
    + rewrite as_num_all_raises by exact Hex. reflexivity.
    + destruct Hex; cbn; discriminate.
Qed.

Lemma normalizer_raises_witness :
  Exists (fun r => r !! "VIBE_shrunk" = None) [result_0; line_300] ∧
  calculate_final_vibe_scores [result_0; line_300] = Raise KeyError.
Proof.
  assert (H : Exists (fun r => r !! "VIBE_shrunk" = None) [result_0; line_300]).
  { right. left. unfold line_300. simplify_map_eq. reflexivity. }
  split; [exact H |].
  destruct (normalizer_raises [result_0; line_300]) as [E _]. exact (E H).
Defined.
